(** * Jigsaw Controller (app.py): grouping engine and phase timer

    A shallow embedding of the grouping functions of [app.py]
    ([assign_topics_evenly], [invert_to_experts], [build_stammgruppen],
    [build_simple_groups]) and of the timer and phase operations of
    [PhaseFrame] ([_tick], [_toggle], [_plus_minute], [_next],
    [_apply_change], [_reshuffle]), with the properties of the
    specification proved or refuted on them; further, of [clean_lines],
    [mmss] and the operations of [SetupFrame] on the form and on the
    saved classes, with properties read off the code.

    Python data is modelled as follows.
    - [str] is [string]; Python compares strings by code point, which on
      UTF-8 bytes is the bytewise lexicographic order [String.leb].
    - [int] is [Z] where the value may be any integer ([group_count],
      [seconds_left], seeds) and [nat] for indices and lengths.
    - [list] is [list], indexed with stdpp's lookup [!!].  An index out of
      range raises [IndexError] in Python; here such an access returns
      [Raise IndexError].  Subscripting a [dict] with a key it does not
      have raises [KeyError]; here [Raise KeyError].
    - [dict] is an association list in insertion order without repeated
      keys, as Python's dict keeps it (module [PyDict]).
    - [random.Random] is an interface ([RandomGen]): the Mersenne Twister
      itself is not part of the repository. *)

From Stdlib Require Import ZArith Lia.
From Stdlib Require Import Sorting.Sorted.
From stdpp Require Import base tactics option numbers list list_numbers strings sorting.
From stdpp Require Import gmap pretty.
From Stdlib Require Import Ascii.

Local Open Scope Z_scope.
Local Open Scope nat_scope.

(** ** Exceptions *)

Inductive exn : Type :=
  | IndexError
  | KeyError.

Inductive result (A : Type) : Type :=
  | Ok (a : A)
  | Raise (e : exn).
Arguments Ok {A} a.
Arguments Raise {A} e.

Definition bind {A B} (r : result A) (k : A -> result B) : result B :=
  match r with
  | Ok a => k a
  | Raise e => Raise e
  end.

Notation "'let*' x ':=' r 'in' k" := (bind r (fun x => k))
  (at level 10, x name, r at level 100, k at level 200).

(** ** Python dictionaries, in insertion order *)

Module PyDict.

Definition dict (V : Type) : Type := list (string * V).

Definition keys {V} (d : dict V) : list string := d.*1.
Definition values {V} (d : dict V) : list V := d.*2.

(** [d.get(k)] *)
Fixpoint get {V} (k : string) (d : dict V) : option V :=
  match d with
  | [] => None
  | (k', v) :: d' => if decide (k' = k) then Some v else get k d'
  end.

(** [d[k] = v]: an existing key keeps its place, a new key goes last. *)
Fixpoint set {V} (k : string) (v : V) (d : dict V) : dict V :=
  match d with
  | [] => [(k, v)]
  | (k', v') :: d' =>
      if decide (k' = k) then (k, v) :: d' else (k', v') :: set k v d'
  end.

(** [d.setdefault(k, v)]: the dictionary afterwards. *)
Definition setdefault {V} (k : string) (v : V) (d : dict V) : dict V :=
  match get k d with
  | Some _ => d
  | None => set k v d
  end.

(** In-place update of the object stored under [k] (as [d[k].append(x)]
    or [d[k].sort()] do); no effect when [k] is absent. *)
Fixpoint update {V} (f : V -> V) (k : string) (d : dict V) : dict V :=
  match d with
  | [] => []
  | (k', v) :: d' =>
      if decide (k' = k) then (k', f v) :: d' else (k', v) :: update f k d'
  end.

End PyDict.
Import PyDict.

(** ** The random source

    [random.Random(seed)] and its method [_randbelow(n)], which returns an
    integer in [range(n)] for [n > 0] and advances the generator. *)

Class RandomGen : Type := {
  rng : Type;
  rng_seed : Z -> rng;
  randbelow : rng -> nat -> nat * rng;
  randbelow_lt : forall g n, 0 < n -> (randbelow g n).1 < n
}.

(** ** The grouping engine *)

Section Engine.

Context {G : RandomGen}.

(** [x[i], x[j] = x[j], x[i]] *)
Definition swap {A} (i j : nat) (x : list A) : result (list A) :=
  match x !! j, x !! i with
  | Some b, Some a => Ok (<[j := a]> (<[i := b]> x))
  | _, _ => Raise IndexError
  end.

(** [Random.shuffle(x)]:
    [for i in reversed(range(1, len(x))): j = randbelow(i + 1); swap].
    [shuffle_from i] runs the iterations [i, i-1, ..., 1]. *)
Fixpoint shuffle_from {A} (i : nat) (g : rng) (x : list A)
  : result (list A) :=
  match i with
  | 0 => Ok x
  | S i' =>
      let '(j, g') := randbelow g (S i) in
      let* x' := swap i j x in
      shuffle_from i' g' x'
  end.

Definition shuffle {A} (g : rng) (x : list A) : result (list A) :=
  shuffle_from (length x - 1) g x.

(** [groups[j].append(x)] *)
Definition append_at {A} (j : nat) (x : A) (groups : list (list A))
  : result (list (list A)) :=
  match groups !! j with
  | Some grp => Ok (<[j := grp ++ [x]]> groups)
  | None => Raise IndexError
  end.

(** [for i, x in enumerate(xs): groups[i % count].append(x)], the loop
    of [build_simple_groups] and the inner loop of [build_stammgruppen];
    [i] is the index of the head of [xs]. *)
Fixpoint round_robin {A} (count i : nat) (xs : list A)
    (groups : list (list A)) : result (list (list A)) :=
  match xs with
  | [] => Ok groups
  | x :: xs' =>
      let* groups' := append_at (i mod count) x groups in
      round_robin count (S i) xs' groups'
  end.

(** *** assign_topics_evenly *)

(** [for i, s in enumerate(shuffled): mapping[s] = topics[i % t]] *)
Fixpoint assign_loop (topics : list string) (t i : nat)
    (shuffled : list string) (mapping : dict string)
  : result (dict string) :=
  match shuffled with
  | [] => Ok mapping
  | s :: rest =>
      match topics !! (i mod t) with
      | Some topic => assign_loop topics t (S i) rest (set s topic mapping)
      | None => Raise IndexError
      end
  end.

Definition assign_topics_evenly (students topics : list string) (seed : Z)
  : result (dict string) :=
  let g := rng_seed seed in
  let* shuffled := shuffle g students in
  let t := max 1 (length topics) in
  assign_loop topics t 0 shuffled [].

(** *** invert_to_experts *)

(** Alphabetical order of [str]: comparison by code point. *)
Definition string_le (a b : string) : Prop := String.leb a b = true.

#[global] Instance string_le_dec : RelDecision string_le :=
  fun a b => decide (String.leb a b = true).

(** [members.sort()]: the sorted rearrangement of the list (Python sorts
    by merging runs; for a total order the result does not depend on the
    algorithm). *)
Definition sort (members : list string) : list string :=
  merge_sort string_le members.

(** [experts.setdefault(topic, []).append(student)] *)
Definition add_expert (experts : dict (list string)) (entry : string * string)
  : dict (list string) :=
  let '(student, topic) := entry in
  update (fun members => members ++ [student]) topic
         (setdefault topic [] experts).

(** The second loop, [for k in experts: experts[k].sort()], sorts the list
    of every entry in place. *)
Definition invert_to_experts (assignment : dict string)
  : dict (list string) :=
  let experts := foldl add_expert [] assignment in
  (fun '(k, members) => (k, sort members)) <$> experts.

(** *** build_stammgruppen *)

(** [for topic in topics: members = expert_groups.get(topic, []); ...] *)
Fixpoint place_topics (expert_groups : dict (list string))
    (groups_count : nat) (topics : list string)
    (groups : list (list (string * string)))
  : result (list (list (string * string))) :=
  match topics with
  | [] => Ok groups
  | topic :: rest =>
      let members := default [] (get topic expert_groups) in
      let* groups' :=
        round_robin groups_count 0
          ((fun student => (student, topic)) <$> members) groups in
      place_topics expert_groups groups_count rest groups'
  end.

Definition build_stammgruppen (expert_groups : dict (list string))
  : result (list (list (string * string))) :=
  let topics := keys expert_groups in
  match topics with
  | [] => Ok []
  | _ =>
      let groups_count := max_list (length <$> values expert_groups) in
      if decide (groups_count = 0) then Ok []
      else place_topics expert_groups groups_count topics
                        (replicate groups_count [])
  end.

(** *** build_simple_groups

    [entropy] is the state of a generator seeded by the operating system,
    used when [seed] is [None]. *)
Definition build_simple_groups (students : list string) (group_count : Z)
    (seed : option Z) (entropy : rng) : result (list (list string)) :=
  if decide ((group_count <= 0)%Z \/ students = []) then Ok []
  else
    let count := Z.to_nat (Z.min group_count (Z.of_nat (length students))) in
    let g := match seed with Some s => rng_seed s | None => entropy end in
    let* shuffled := shuffle g students in
    round_robin count 0 shuffled (replicate count []).

End Engine.

(** ** The session state and the phase frame *)

Record AppState : Type := {
  students : list string;
  topics : list string;
  class_name : string;
  dur_read : Z;
  dur_expert : Z;
  dur_stamm : Z;
  seed : Z;
  assignment : dict string;
  experts : dict (list string);
  stammgruppen : list (list (string * string));
  simple_groups : list (list string);
  phase : Z;
  seconds_left : Z;
  running : bool
}.

Definition with_timer (ph sec : Z) (run : bool) (st : AppState) : AppState :=
  {| students := students st; topics := topics st;
     class_name := class_name st; dur_read := dur_read st;
     dur_expert := dur_expert st; dur_stamm := dur_stamm st;
     seed := seed st; assignment := assignment st; experts := experts st;
     stammgruppen := stammgruppen st; simple_groups := simple_groups st;
     phase := ph; seconds_left := sec; running := run |}.

Definition with_groups (sd : Z) (a : dict string) (e : dict (list string))
    (g : list (list (string * string))) (st : AppState) : AppState :=
  {| students := students st; topics := topics st;
     class_name := class_name st; dur_read := dur_read st;
     dur_expert := dur_expert st; dur_stamm := dur_stamm st;
     seed := sd; assignment := a; experts := e;
     stammgruppen := g; simple_groups := simple_groups st;
     phase := phase st; seconds_left := seconds_left st;
     running := running st |}.

(** What the frame tells the operator: [self.bell()] and the message
    boxes. *)
Inductive signal : Type :=
  | Bell
  | ShowInfo (title message : string)
  | ShowWarning (title message : string).

(** The part of [PhaseFrame] that its callbacks read and write: the shared
    [AppState], the pending [after] callback [_timer_job] (callbacks are
    numbered in the order they are scheduled, [jobs] counts them), the
    text of the two comboboxes, and the signals raised so far. *)
Record PhaseFrame : Type := {
  state : AppState;
  _timer_job : option nat;
  jobs : nat;
  cmb_student : string;
  cmb_topic : string;
  signals : list signal
}.

Definition with_state (st : AppState) (f : PhaseFrame) : PhaseFrame :=
  {| state := st; _timer_job := _timer_job f; jobs := jobs f;
     cmb_student := cmb_student f; cmb_topic := cmb_topic f;
     signals := signals f |}.

(** [self._timer_job = self.after(1000, self._tick)] *)
Definition after_tick (f : PhaseFrame) : PhaseFrame :=
  {| state := state f; _timer_job := Some (jobs f); jobs := S (jobs f);
     cmb_student := cmb_student f; cmb_topic := cmb_topic f;
     signals := signals f |}.

(** [after_cancel(self._timer_job); self._timer_job = None] *)
Definition cancel_timer (f : PhaseFrame) : PhaseFrame :=
  {| state := state f; _timer_job := None; jobs := jobs f;
     cmb_student := cmb_student f; cmb_topic := cmb_topic f;
     signals := signals f |}.

Definition select (s t : string) (f : PhaseFrame) : PhaseFrame :=
  {| state := state f; _timer_job := _timer_job f; jobs := jobs f;
     cmb_student := s; cmb_topic := t; signals := signals f |}.

Definition emit (x : signal) (f : PhaseFrame) : PhaseFrame :=
  {| state := state f; _timer_job := _timer_job f; jobs := jobs f;
     cmb_student := cmb_student f; cmb_topic := cmb_topic f;
     signals := signals f ++ [x] |}.

(** [_render], as far as it writes the fields above.  It begins with the
    title [names[self.state.phase]], where [names] has the keys 1, 2 and
    3: for any other phase the subscript raises [KeyError] before anything
    is drawn.  Outside phase 1, or without students or topics, the
    comboboxes are emptied and disabled. *)
Definition _render (f : PhaseFrame) : result PhaseFrame :=
  let st := state f in
  if decide (phase st = 1 \/ phase st = 2 \/ phase st = 3)%Z then
    if decide (phase st = 1%Z /\ students st <> [] /\ topics st <> [])
    then Ok f
    else Ok (select "" "" f)
  else Raise KeyError.

Definition _tick (f : PhaseFrame) : PhaseFrame :=
  let st := state f in
  if running st then
    if decide (0 < seconds_left st)%Z then
      after_tick
        (with_state (with_timer (phase st) (seconds_left st - 1) (running st) st) f)
    else
      emit Bell (with_state (with_timer (phase st) (seconds_left st) false st) f)
  else f.

Definition _toggle (f : PhaseFrame) : PhaseFrame :=
  let st := state f in
  let f' := with_state (with_timer (phase st) (seconds_left st) (negb (running st)) st) f in
  if running (state f') then _tick f' else f'.

Definition _plus_minute (f : PhaseFrame) : PhaseFrame :=
  let st := state f in
  with_state (with_timer (phase st) (seconds_left st + 60) (running st) st) f.

Definition _next (f : PhaseFrame) : result PhaseFrame :=
  let f := match _timer_job f with Some _ => cancel_timer f | None => f end in
  let st := state f in
  if decide (phase st < 3)%Z then
    let ph := (phase st + 1)%Z in
    let sec :=
      if decide (ph = 2%Z) then (dur_expert st * 60)%Z
      else if decide (ph = 3%Z) then (dur_stamm st * 60)%Z
      else seconds_left st in
    let st := with_timer ph sec false st in
    let e := invert_to_experts (assignment st) in
    let* g := build_stammgruppen e in
    _render (with_state (with_groups (seed st) (assignment st) e g st) f)
  else
    Ok (emit (ShowInfo "Abschluss" "Jigsaw-Durchlauf beendet.")
          (with_state (with_timer (phase st) (seconds_left st) false st) f)).

Definition _apply_change (f : PhaseFrame) : result PhaseFrame :=
  let s := cmb_student f in
  let t := cmb_topic f in
  if decide (s = "" \/ t = "") then
    Ok (emit (ShowWarning "Hinweis" "Bitte Schueler und Thema waehlen.") f)
  else
    let st := state f in
    let a := set s t (assignment st) in
    let e := invert_to_experts a in
    let* g := build_stammgruppen e in
    _render (select "" "" (with_state (with_groups (seed st) a e g st) f)).

(** [drawn] is the value of [random.randint(0, 999999)]. *)
Definition _reshuffle {G : RandomGen} (drawn : Z) (f : PhaseFrame)
  : result PhaseFrame :=
  let st := state f in
  if decide (phase st <> 1%Z) then
    Ok (emit (ShowWarning "Hinweis" "Neu zuteilen ist nur in Phase 1 moeglich.") f)
  else if decide (students st = [] \/ topics st = []) then
    Ok (emit (ShowWarning "Hinweis" "Bitte zuerst Schueler und Themen erfassen.") f)
  else
    let* a := assign_topics_evenly (students st) (topics st) drawn in
    let e := invert_to_experts a in
    let* g := build_stammgruppen e in
    _render (select "" "" (with_state (with_groups drawn a e g st) f)).

(** The operation of the specification: choose learner [s] and topic [t]
    in the comboboxes and press the button. *)
Definition reassign (s t : string) (f : PhaseFrame) : result PhaseFrame :=
  _apply_change (select s t f).

(** ** Vocabulary of the properties *)

(** Number of learners that [m] maps to [topic]. *)
Definition bucket_size (m : dict string) (topic : string) : nat :=
  length (filter (fun p => p.2 = topic) m).

(** The (learner, topic) pairs listed by an expert-group mapping. *)
Definition pairs_of (e : dict (list string)) : list (string * string) :=
  e ≫= fun '(topic, members) => (fun student => (student, topic)) <$> members.

(** The elements of [xs] that [round_robin count i xs] appends to group
    [k], in order. *)
Fixpoint picks {A} (count i : nat) (xs : list A) (k : nat) : list A :=
  match xs with
  | [] => []
  | x :: xs' =>
      (if decide (i mod count = k) then [x] else []) ++ picks count (S i) xs' k
  end.

(** A list in alphabetical order. *)
Definition alphabetical (l : list string) : Prop := Sorted string_le l.

(** How many of [0, ..., n-1] are congruent to [k] modulo [c]. *)
Definition count_mod (c n k : nat) : nat :=
  length (filter (fun i => i mod c = k) (seq 0 n)).

(** The topics an assignment loop hands out from index [i] on. *)
Definition cycle (topics : list string) (t i n : nat) : list string :=
  (fun i => default "" (topics !! (i mod t))) <$> seq i n.

(** A linear congruential generator, to run the functions on concrete
    inputs. *)
Definition lcg_next (g : Z) : Z := ((g * 1103515245 + 12345) mod 2147483648)%Z.

Definition lcg_randbelow (g : Z) (n : nat) : nat * Z :=
  (Z.to_nat (lcg_next g mod Z.of_nat n), lcg_next g).

Lemma lcg_randbelow_lt (g : Z) (n : nat) : 0 < n -> (lcg_randbelow g n).1 < n.
Proof.
  intros Hn. unfold lcg_randbelow. simpl.
  pose proof (Z.mod_pos_bound (lcg_next g) (Z.of_nat n)). lia.
Qed.

Definition lcg : RandomGen :=
  {| rng := Z; rng_seed := fun s => s; randbelow := lcg_randbelow;
     randbelow_lt := lcg_randbelow_lt |}.


(** ** A sample session, for the worked examples *)

Definition sample_roster : list string := ["A"; "B"; "C"; "D"; "E"].
Definition sample_topics : list string := ["X"; "Y"].

Definition sample_experts : dict (list string) :=
  [("X", ["A"; "B"; "E"]); ("Y", ["C"; "D"])].

Definition sample_state (ph sec : Z) (run : bool) : AppState :=
  {| students := sample_roster; topics := sample_topics; class_name := "1a";
     dur_read := 8; dur_expert := 12; dur_stamm := 15; seed := 1;
     assignment := [("E", "X"); ("C", "Y"); ("B", "X"); ("D", "Y"); ("A", "X")];
     experts := sample_experts;
     stammgruppen :=
       [[("A", "X"); ("C", "Y")]; [("B", "X"); ("D", "Y")]; [("E", "X")]];
     simple_groups := [];
     phase := ph; seconds_left := sec; running := run |}.

Definition sample_frame (ph sec : Z) (run : bool) : PhaseFrame :=
  {| state := sample_state ph sec run; _timer_job := None; jobs := 0;
     cmb_student := ""; cmb_topic := ""; signals := [] |}.

Ltac by_computation := apply (bool_decide_unpack _); vm_compute; exact I.

(** ** Further vocabulary: closed forms of the grouping functions *)

(** The learners that [a] maps to [topic], in the order of [a]. *)
Definition learners_of (a : dict string) (topic : string) : list string :=
  (filter (fun p => p.2 = topic) a).*1.

(** The experts of rank [k]: the [k]-th member of every bucket that has
    one, in the order of the buckets. *)
Definition home_group (e : dict (list string)) (k : nat)
  : list (string * string) :=
  e ≫= fun '(topic, members) =>
    option_list ((fun student => (student, topic)) <$> members !! k).

(** ** clean_lines

    [str.splitlines] and [str.strip] follow the Unicode tables of line
    boundaries and white space; they are taken as given.  [replace] and
    [split] on the ASCII characters [;] and [,] are written out (on UTF-8
    text the two bytes occur only as these characters). *)

Class PyStr : Type := {
  splitlines : string -> list string;
  strip : string -> string
}.

(** [line.replace(";", ",")] *)
Fixpoint replace_semicolons (line : string) : string :=
  match line with
  | EmptyString => EmptyString
  | String c rest =>
      String (if decide (c = ";"%char) then ","%char else c)
             (replace_semicolons rest)
  end.

(** [line.split(",")]: always at least one part. *)
Fixpoint split_commas (line : string) : list string :=
  match line with
  | EmptyString => [EmptyString]
  | String c rest =>
      if decide (c = ","%char) then EmptyString :: split_commas rest
      else match split_commas rest with
           | part :: parts => String c part :: parts
           | [] => [String c EmptyString]
           end
  end.

(** [for x in raw: if x not in seen: out.append(x); seen.add(x)] *)
Fixpoint dedup_loop (raw : list string) (seen : gset string)
    (out : list string) : list string :=
  match raw with
  | [] => out
  | x :: raw' =>
      if decide (x ∈ seen) then dedup_loop raw' seen out
      else dedup_loop raw' ({[x]} ∪ seen) (out ++ [x])
  end.

Definition clean_lines {S : PyStr} (block : string) : list string :=
  if decide (block = "") then []
  else
    let raw :=
      splitlines block ≫= fun line =>
        let parts := strip <$> split_commas (replace_semicolons line) in
        filter (fun p => p <> "") parts in
    dedup_loop raw ∅ [].

(** ** The setup frame

    The part of [SetupFrame] that [_start], [_open_simple_groups] and
    [_save_class] read and write.  [txt_names] is the text that
    [self.txt_names.get("1.0", tk.END)] returns, [topic_vars] the contents
    of the topic fields, the [var_] fields the integers held by the
    [IntVar]s, [_defaults] the three durations that the frame found in
    the state when it was built. *)

Record ClassConfig : Type := {
  cfg_students : list string;
  cfg_topics : list string;
  cfg_dur_read : Z;
  cfg_dur_expert : Z;
  cfg_dur_stamm : Z
}.

Inductive box_kind : Type := InfoBox | WarningBox | ErrorBox.

Record notice : Type := Notice {
  notice_kind : box_kind;
  notice_title : string;
  notice_message : string
}.

Record SetupFrame : Type := {
  setup_state : AppState;
  saved_classes : dict ClassConfig;
  cmb_classes : string;
  var_class_name : string;
  txt_names : string;
  topic_vars : list string;
  var_read : Z;
  var_expert : Z;
  var_stamm : Z;
  var_seed : Z;
  var_simple_group_count : Z;
  var_topic_count : Z;
  _defaults : Z * Z * Z;
  notices : list notice;
  started : bool
}.

Definition with_setup_state (st : AppState) (f : SetupFrame) : SetupFrame :=
  {| setup_state := st; saved_classes := saved_classes f;
     cmb_classes := cmb_classes f; var_class_name := var_class_name f;
     txt_names := txt_names f; topic_vars := topic_vars f;
     var_read := var_read f; var_expert := var_expert f;
     var_stamm := var_stamm f; var_seed := var_seed f;
     var_simple_group_count := var_simple_group_count f;
     var_topic_count := var_topic_count f; _defaults := _defaults f;
     notices := notices f; started := started f |}.

Definition with_saved_classes (d : dict ClassConfig) (f : SetupFrame)
  : SetupFrame :=
  {| setup_state := setup_state f; saved_classes := d;
     cmb_classes := cmb_classes f; var_class_name := var_class_name f;
     txt_names := txt_names f; topic_vars := topic_vars f;
     var_read := var_read f; var_expert := var_expert f;
     var_stamm := var_stamm f; var_seed := var_seed f;
     var_simple_group_count := var_simple_group_count f;
     var_topic_count := var_topic_count f; _defaults := _defaults f;
     notices := notices f; started := started f |}.

Definition with_cmb_classes (name : string) (f : SetupFrame) : SetupFrame :=
  {| setup_state := setup_state f; saved_classes := saved_classes f;
     cmb_classes := name; var_class_name := var_class_name f;
     txt_names := txt_names f; topic_vars := topic_vars f;
     var_read := var_read f; var_expert := var_expert f;
     var_stamm := var_stamm f; var_seed := var_seed f;
     var_simple_group_count := var_simple_group_count f;
     var_topic_count := var_topic_count f; _defaults := _defaults f;
     notices := notices f; started := started f |}.

(** [messagebox.showinfo], [showwarning], [showerror] *)
Definition notify (kind : box_kind) (title message : string) (f : SetupFrame)
  : SetupFrame :=
  {| setup_state := setup_state f; saved_classes := saved_classes f;
     cmb_classes := cmb_classes f; var_class_name := var_class_name f;
     txt_names := txt_names f; topic_vars := topic_vars f;
     var_read := var_read f; var_expert := var_expert f;
     var_stamm := var_stamm f; var_seed := var_seed f;
     var_simple_group_count := var_simple_group_count f;
     var_topic_count := var_topic_count f; _defaults := _defaults f;
     notices := notices f ++ [Notice kind title message];
     started := started f |}.

(** [self.on_start()] *)
Definition on_start (f : SetupFrame) : SetupFrame :=
  {| setup_state := setup_state f; saved_classes := saved_classes f;
     cmb_classes := cmb_classes f; var_class_name := var_class_name f;
     txt_names := txt_names f; topic_vars := topic_vars f;
     var_read := var_read f; var_expert := var_expert f;
     var_stamm := var_stamm f; var_seed := var_seed f;
     var_simple_group_count := var_simple_group_count f;
     var_topic_count := var_topic_count f; _defaults := _defaults f;
     notices := notices f; started := true |}.

Definition with_simple_groups (groups : list (list string)) (st : AppState)
  : AppState :=
  {| students := students st; topics := topics st;
     class_name := class_name st; dur_read := dur_read st;
     dur_expert := dur_expert st; dur_stamm := dur_stamm st;
     seed := seed st; assignment := assignment st; experts := experts st;
     stammgruppen := stammgruppen st; simple_groups := groups;
     phase := phase st; seconds_left := seconds_left st;
     running := running st |}.

Definition with_class_name (name : string) (st : AppState) : AppState :=
  {| students := students st; topics := topics st;
     class_name := name; dur_read := dur_read st;
     dur_expert := dur_expert st; dur_stamm := dur_stamm st;
     seed := seed st; assignment := assignment st; experts := experts st;
     stammgruppen := stammgruppen st; simple_groups := simple_groups st;
     phase := phase st; seconds_left := seconds_left st;
     running := running st |}.

(** [[v.get().strip() for v in self.topic_vars if v.get().strip()]] *)
Definition entered_topics {S : PyStr} (f : SetupFrame) : list string :=
  filter (fun t => t <> "") (strip <$> topic_vars f).

Definition _start {S : PyStr} {G : RandomGen} (f : SetupFrame)
  : result SetupFrame :=
  let names := clean_lines (txt_names f) in
  let entered := entered_topics f in
  if decide (length names < 2) then
    Ok (notify ErrorBox "Fehler" "Bitte mindestens 2 Schuelernamen eingeben." f)
  else if decide (length entered < 2) then
    Ok (notify ErrorBox "Fehler" "Bitte mindestens 2 Themen eingeben." f)
  else
    let* a := assign_topics_evenly names entered (var_seed f) in
    let e := invert_to_experts a in
    let* g := build_stammgruppen e in
    let st' :=
      {| students := names; topics := entered;
         class_name := strip (var_class_name f);
         dur_read := var_read f; dur_expert := var_expert f;
         dur_stamm := var_stamm f; seed := var_seed f;
         assignment := a; experts := e; stammgruppen := g;
         simple_groups := [];
         phase := 1; seconds_left := var_read f * 60; running := false |} in
    Ok (on_start (with_setup_state st' f)).

(** [JigsawApp._to_phase]: the phase frame that [PhaseFrame.__init__]
    builds around the shared state; [__init__] ends with [_render]. *)
Definition _to_phase (f : SetupFrame) : result PhaseFrame :=
  _render {| state := setup_state f; _timer_job := None; jobs := 0;
             cmb_student := ""; cmb_topic := ""; signals := [] |}.

(** [drawn] is the value of [random.randint(0, 999999)]; a seed is passed
    to [build_simple_groups], so no other generator is consulted. *)
Definition _open_simple_groups {S : PyStr} {G : RandomGen} (drawn : Z)
    (f : SetupFrame) : result SetupFrame :=
  let count := Z.max 2 (var_simple_group_count f) in
  let names := clean_lines (txt_names f) in
  if decide (Z.of_nat (length names) < count)%Z then
    Ok (notify WarningBox "Hinweis"
          "Es werden mehr Lernende benoetigt als Gruppen vorhanden sind. Bitte Liste pruefen."
          f)
  else
    let* groups :=
      build_simple_groups names count (Some drawn) (rng_seed drawn) in
    Ok (with_setup_state (with_simple_groups groups (setup_state f)) f).

(** [d.pop(k, None)]: the dictionary afterwards. *)
Fixpoint pop {V} (k : string) (d : dict V) : dict V :=
  match d with
  | [] => []
  | (k', v) :: d' => if decide (k' = k) then d' else (k', v) :: pop k d'
  end.

(** [_refresh_class_options(selected)], as far as it sets the combobox of
    saved classes. *)
Definition _refresh_class_options (selected : string) (f : SetupFrame)
  : SetupFrame :=
  let names := keys (saved_classes f) in
  if decide (selected <> "" /\ selected ∈ names) then with_cmb_classes selected f
  else if decide (selected <> "") then with_cmb_classes "" f
  else if decide (names = []) then with_cmb_classes "" f
  else f.

Definition line_feed : string := String "010"%char EmptyString.

(** [if error:] takes an error text for an error when it is not empty. *)
Definition reported (error : option string) : option string :=
  match error with
  | Some text => if decide (text = "") then None else Some text
  | None => None
  end.

(** [persist] is [on_classes_changed], that is [save_classes] on the
    classes file: it returns the error text, or [None] on success. *)
Definition _save_class {S : PyStr}
    (persist : dict ClassConfig -> option string) (f : SetupFrame)
  : SetupFrame :=
  let name := strip (var_class_name f) in
  if decide (name = "") then
    notify WarningBox "Hinweis" "Bitte einen Namen fuer die Klasse angeben." f
  else
    let names := clean_lines (txt_names f) in
    let entered := entered_topics f in
    if decide (names = []) then
      notify WarningBox "Hinweis"
        "Zum Speichern bitte mindestens einen Schuelernamen eingeben." f
    else if decide (length entered < 1) then
      notify WarningBox "Hinweis"
        "Zum Speichern bitte mindestens ein Thema erfassen." f
    else
      let config :=
        {| cfg_students := names; cfg_topics := entered;
           cfg_dur_read := var_read f; cfg_dur_expert := var_expert f;
           cfg_dur_stamm := var_stamm f |} in
      let previous := get name (saved_classes f) in
      let f1 := with_saved_classes (set name config (saved_classes f)) f in
      let f2 := with_setup_state (with_class_name name (setup_state f1)) f1 in
      let f3 := _refresh_class_options name f2 in
      match reported (persist (saved_classes f3)) with
      | Some error =>
          let restored :=
            match previous with
            | None => pop name (saved_classes f3)
            | Some cfg => set name cfg (saved_classes f3)
            end in
          let f4 := with_saved_classes restored f3 in
          let f5 :=
            _refresh_class_options
              (match previous with Some _ => name | None => "" end) f4 in
          notify ErrorBox "Fehler"
            ("Klasse konnte nicht gespeichert werden:" +:+ line_feed +:+ error) f5
      | None =>
          notify InfoBox "Gespeichert"
            ("Klasse '" +:+ name +:+ "' wurde gesichert.") f3
      end.

(** ** Loading, resetting and deleting a class *)

Definition with_var_class_name (name : string) (f : SetupFrame) : SetupFrame :=
  {| setup_state := setup_state f; saved_classes := saved_classes f;
     cmb_classes := cmb_classes f; var_class_name := name;
     txt_names := txt_names f; topic_vars := topic_vars f;
     var_read := var_read f; var_expert := var_expert f;
     var_stamm := var_stamm f; var_seed := var_seed f;
     var_simple_group_count := var_simple_group_count f;
     var_topic_count := var_topic_count f; _defaults := _defaults f;
     notices := notices f; started := started f |}.

Definition with_txt_names (text : string) (f : SetupFrame) : SetupFrame :=
  {| setup_state := setup_state f; saved_classes := saved_classes f;
     cmb_classes := cmb_classes f; var_class_name := var_class_name f;
     txt_names := text; topic_vars := topic_vars f;
     var_read := var_read f; var_expert := var_expert f;
     var_stamm := var_stamm f; var_seed := var_seed f;
     var_simple_group_count := var_simple_group_count f;
     var_topic_count := var_topic_count f; _defaults := _defaults f;
     notices := notices f; started := started f |}.

Definition with_topic_vars (labels : list string) (f : SetupFrame) : SetupFrame :=
  {| setup_state := setup_state f; saved_classes := saved_classes f;
     cmb_classes := cmb_classes f; var_class_name := var_class_name f;
     txt_names := txt_names f; topic_vars := labels;
     var_read := var_read f; var_expert := var_expert f;
     var_stamm := var_stamm f; var_seed := var_seed f;
     var_simple_group_count := var_simple_group_count f;
     var_topic_count := var_topic_count f; _defaults := _defaults f;
     notices := notices f; started := started f |}.

Definition with_var_topic_count (count : Z) (f : SetupFrame) : SetupFrame :=
  {| setup_state := setup_state f; saved_classes := saved_classes f;
     cmb_classes := cmb_classes f; var_class_name := var_class_name f;
     txt_names := txt_names f; topic_vars := topic_vars f;
     var_read := var_read f; var_expert := var_expert f;
     var_stamm := var_stamm f; var_seed := var_seed f;
     var_simple_group_count := var_simple_group_count f;
     var_topic_count := count; _defaults := _defaults f;
     notices := notices f; started := started f |}.

Definition with_durations (d : Z * Z * Z) (f : SetupFrame) : SetupFrame :=
  {| setup_state := setup_state f; saved_classes := saved_classes f;
     cmb_classes := cmb_classes f; var_class_name := var_class_name f;
     txt_names := txt_names f; topic_vars := topic_vars f;
     var_read := d.1.1; var_expert := d.1.2;
     var_stamm := d.2; var_seed := var_seed f;
     var_simple_group_count := var_simple_group_count f;
     var_topic_count := var_topic_count f; _defaults := _defaults f;
     notices := notices f; started := started f |}.

(** [_randomize_seed]; [drawn] is the value of
    [random.randint(0, 999999)]. *)
Definition _randomize_seed (drawn : Z) (f : SetupFrame) : SetupFrame :=
  {| setup_state := setup_state f; saved_classes := saved_classes f;
     cmb_classes := cmb_classes f; var_class_name := var_class_name f;
     txt_names := txt_names f; topic_vars := topic_vars f;
     var_read := var_read f; var_expert := var_expert f;
     var_stamm := var_stamm f; var_seed := drawn;
     var_simple_group_count := var_simple_group_count f;
     var_topic_count := var_topic_count f; _defaults := _defaults f;
     notices := notices f; started := started f |}.

(** What [self.txt_names.get("1.0", tk.END)] returns once the widget
    holds [content]: Tk ends the text of the widget with a line feed. *)
Definition text_of (content : string) : string := content +:+ line_feed.

(** [f"Thema {i + 1}"] *)
Definition default_topic (i : nat) : string := "Thema " +:+ pretty (S i).

(** [previous[i] if i < len(previous) and previous[i] else f"Thema {i + 1}"] *)
Definition topic_label (previous : list string) (i : nat) : string :=
  match previous !! i with
  | Some label => if decide (label = "") then default_topic i else label
  | None => default_topic i
  end.

Definition _render_topics_inputs {S : PyStr} (given : option (list string))
    (f : SetupFrame) : SetupFrame :=
  let previous :=
    match given with
    | Some entries => entries
    | None => strip <$> topic_vars f
    end in
  let count := Z.to_nat (Z.max 2 (var_topic_count f)) in
  with_topic_vars (topic_label previous <$> seq 0 count) f.

Definition _reset_form {S : PyStr} (drawn : Z) (f : SetupFrame) : SetupFrame :=
  let f := with_cmb_classes "" f in
  let f := with_var_class_name "" f in
  let f := with_txt_names (text_of "") f in
  let f := with_var_topic_count 4 f in
  let f := _render_topics_inputs None f in
  let f := with_durations (_defaults f) f in
  let f := _randomize_seed drawn f in
  with_setup_state (with_class_name "" (setup_state f)) f.

(** [_load_selected_class()], as the button and the combobox call it:
    without a name. *)
Definition _load_selected_class {S : PyStr} (drawn : Z) (f : SetupFrame)
  : SetupFrame :=
  let name := strip (cmb_classes f) in
  if decide (name = "") then f
  else
    match get name (saved_classes f) with
    | None =>
        notify WarningBox "Hinweis"
          ("Klasse '" +:+ name +:+ "' konnte nicht gefunden werden.") f
    | Some cfg =>
        let f := with_setup_state (with_class_name name (setup_state f)) f in
        let f := with_var_class_name name f in
        let f := with_txt_names
                   (text_of (String.concat line_feed (cfg_students cfg))) f in
        let entered := cfg_topics cfg in
        let count :=
          Z.max 2 (if decide (entered = []) then 4
                   else Z.of_nat (length entered)) in
        let f := with_var_topic_count count f in
        let f := _render_topics_inputs
                   (if decide (entered = []) then None else Some entered) f in
        let f := with_durations
                   (cfg_dur_read cfg, cfg_dur_expert cfg, cfg_dur_stamm cfg) f in
        let f := _randomize_seed drawn f in
        _refresh_class_options name f
    end.

(** [confirmed] is the answer to [messagebox.askyesno].  The test
    [name not in self.saved_classes] is the lookup that finds nothing, so
    that [pop(name)] has its key and returns the configuration found. *)
Definition _delete_class {S : PyStr}
    (persist : dict ClassConfig -> option string) (confirmed : bool)
    (drawn : Z) (f : SetupFrame) : SetupFrame :=
  let name :=
    if decide (strip (cmb_classes f) = "") then strip (var_class_name f)
    else strip (cmb_classes f) in
  match get name (saved_classes f) with
  | Some config =>
      if decide (name = "") then
        notify WarningBox "Hinweis"
          "Bitte zuerst eine gespeicherte Klasse auswaehlen." f
      else if negb confirmed then f
      else
        let f1 := with_saved_classes (pop name (saved_classes f)) f in
        match reported (persist (saved_classes f1)) with
        | Some error =>
            let f2 :=
              with_saved_classes (set name config (saved_classes f1)) f1 in
            let f3 := _refresh_class_options name f2 in
            notify ErrorBox "Fehler"
              ("Klasse konnte nicht geloescht werden:" +:+ line_feed +:+ error)
              f3
        | None =>
            let f2 := _refresh_class_options "" f1 in
            let f3 := _reset_form drawn f2 in
            notify InfoBox "Geloescht"
              ("Klasse '" +:+ name +:+ "' wurde entfernt.") f3
        end
  | None =>
      notify WarningBox "Hinweis"
        "Bitte zuerst eine gespeicherte Klasse auswaehlen." f
  end.

(** A stand-in for the two string methods that knows only the line feed
    and the space, to run the functions on plain examples. *)
Fixpoint split_line_feeds (text : string) : list string :=
  match text with
  | EmptyString => []
  | String c rest =>
      if decide (c = "010"%char) then EmptyString :: split_line_feeds rest
      else match split_line_feeds rest with
           | part :: parts => String c part :: parts
           | [] => [String c EmptyString]
           end
  end.

Fixpoint strip_left (text : string) : string :=
  match text with
  | String " " rest => strip_left rest
  | _ => text
  end.

Definition strip_spaces (text : string) : string :=
  String.rev (strip_left (String.rev (strip_left text))).

Definition plain_str : PyStr :=
  {| splitlines := split_line_feeds; strip := strip_spaces |}.

Definition sample_setup (names : string) (entered : list string) : SetupFrame :=
  {| setup_state := sample_state 1 0 false; saved_classes := [];
     cmb_classes := ""; var_class_name := " 1a ";
     txt_names := names; topic_vars := entered;
     var_read := 8; var_expert := 12; var_stamm := 15; var_seed := 1;
     var_simple_group_count := 4; var_topic_count := 4;
     _defaults := (8, 12, 15)%Z; notices := []; started := false |}.

Definition sample_class : ClassConfig :=
  {| cfg_students := ["Ada"; "Bob"]; cfg_topics := ["X"; "Y"];
     cfg_dur_read := 8; cfg_dur_expert := 12; cfg_dur_stamm := 15 |}.

(** The form with two saved classes, the first of them selected. *)
Definition saved_setup : SetupFrame :=
  with_cmb_classes "1a"
    (with_saved_classes [("1a", sample_class); ("1b", sample_class)]
       (sample_setup "Ada, Bob" ["X"; "Y"])).

(** ** Vocabulary of the session invariants *)

(** The derived groups are those of the current assignment. *)
Definition groups_current (st : AppState) : Prop :=
  experts st = invert_to_experts (assignment st) /\
  build_stammgruppen (experts st) = Ok (stammgruppen st).

(** The assignment gives every learner of the roster, and nobody else, a
    topic of the topic list. *)
Definition roster_assigned (st : AppState) : Prop :=
  NoDup (students st) /\
  keys (assignment st) ≡ₚ students st /\
  forall learner topic,
    (learner, topic) ∈ assignment st -> topic ∈ topics st.

(** Two states that differ at most in the countdown: [seconds_left] and
    [running]. *)
Definition same_session (st st' : AppState) : Prop :=
  students st' = students st /\ topics st' = topics st /\
  class_name st' = class_name st /\
  dur_read st' = dur_read st /\ dur_expert st' = dur_expert st /\
  dur_stamm st' = dur_stamm st /\ seed st' = seed st /\
  assignment st' = assignment st /\ experts st' = experts st /\
  stammgruppen st' = stammgruppen st /\
  simple_groups st' = simple_groups st /\ phase st' = phase st.

(** ** The operations of the phase frame

    What the operator and the timer can do once the phase frame is shown.
    The two comboboxes are read-only lists of the roster and of the
    topics, so a reassignment is offered only for such entries (or with a
    combobox left empty). *)

Inductive operation : Type :=
  | Tick
  | Toggle
  | PlusMinute
  | Next
  | Reassign (s t : string)
  | Reshuffle (drawn : Z).

Definition perform {G : RandomGen} (op : operation) (f : PhaseFrame)
  : result PhaseFrame :=
  match op with
  | Tick => Ok (_tick f)
  | Toggle => Ok (_toggle f)
  | PlusMinute => Ok (_plus_minute f)
  | Next => _next f
  | Reassign s t => reassign s t f
  | Reshuffle drawn => _reshuffle drawn f
  end.

Definition offered (f : PhaseFrame) (op : operation) : Prop :=
  match op with
  | Reassign s t =>
      (s = "" \/ s ∈ students (state f)) /\ (t = "" \/ t ∈ topics (state f))
  | _ => True
  end.

(** The frames that a sequence of offered operations leads to. *)
Inductive reaches {G : RandomGen} (f : PhaseFrame) : PhaseFrame -> Prop :=
  | reaches_here : reaches f f
  | reaches_step (op : operation) (f' f'' : PhaseFrame) :
      reaches f f' -> offered f' op -> perform op f' = Ok f'' ->
      reaches f f''.

(** The invariant of a session. *)
Definition session_ok (st : AppState) : Prop :=
  roster_assigned st /\ groups_current st /\
  students st <> [] /\ topics st <> [] /\
  (1 <= phase st <= 3)%Z.

(** ** The phase-1 view and the clock text *)

(** The groups that [_render] shows in phase 1: an entry for every topic
    of the topic list, then the learners of the assignment, every list
    sorted. *)
Definition phase1_groups (topic_list : list string) (a : dict string)
  : dict (list string) :=
  let groups := foldl (fun d t => set t [] d) [] topic_list in
  let groups := foldl add_expert groups a in
  (fun '(k, members) => (k, sort members)) <$> groups.

(** [f"{n:02d}"] for [n >= 0]: the decimal digits, padded with a zero to
    two characters. *)
Definition two_digits (n : Z) : string :=
  let digits := pretty (Z.to_N n) in
  if decide (String.length digits < 2) then "0" +:+ digits else digits.

Definition mmss (sec : Z) : string :=
  let sec := Z.max 0 sec in
  let m := (sec / 60)%Z in
  let s := (sec mod 60)%Z in
  two_digits m +:+ ":" +:+ two_digits s.

(** The number that two decimal digits denote, and the test that
    [two_digits n] is the two-digit numeral of [n]. *)
Definition digits_value (c1 c2 : ascii) : nat :=
  (nat_of_ascii c1 - 48) * 10 + (nat_of_ascii c2 - 48).

Definition two_digits_ok (n : nat) : bool :=
  match two_digits (Z.of_nat n) with
  | String c1 (String c2 EmptyString) => bool_decide (digits_value c1 c2 = n)
  | _ => false
  end.

(** ** Pending timer callbacks

    Tk keeps the callbacks registered with [after] until they fire or are
    cancelled.  [pending] lists their numbers; an operation that raises
    the counter [jobs] of the frame has registered the callbacks with the
    numbers in between. *)

Record EventLoop : Type := {
  frame : PhaseFrame;
  pending : list nat
}.

Definition registered (f f' : PhaseFrame) : list nat :=
  seq (jobs f) (jobs f' - jobs f).

(** The operator presses the start/pause button. *)
Definition press_toggle (l : EventLoop) : EventLoop :=
  let f' := _toggle (frame l) in
  {| frame := f'; pending := pending l ++ registered (frame l) f' |}.

(** The pending callback [job] fires: it leaves the queue and [_tick]
    runs. *)
Definition fire (job : nat) (l : EventLoop) : EventLoop :=
  if decide (job ∈ pending l) then
    let f' := _tick (frame l) in
    {| frame := f';
       pending := filter (fun j => j <> job) (pending l)
                  ++ registered (frame l) f' |}
  else l.

(** * Properties *)

(** ** Results *)

Lemma bind_Ok {A B} (r : result A) (k : A -> result B) (b : B) :
  bind r k = Ok b <-> exists a, r = Ok a /\ k a = Ok b.
Proof.
  destruct r as [a|e]; simpl; split.
  - eauto.
  - intros (a' & Ha & Hk). by inversion Ha; subst.
  - discriminate.
  - intros (a' & Ha & _). discriminate.
Qed.

(** ** Shuffling *)

Lemma insert_Permutation {A} (l : list A) (i : nat) (a b : A) :
  l !! i = Some a -> <[i := b]> l ≡ₚ b :: delete i l.
Proof.
  revert i. induction l as [|x l IH]; intros [|i] Hi; simplify_eq/=.
  - done.
  - rewrite (IH i Hi). apply Permutation_swap.
Qed.

Lemma swap_Permutation {A} (i j : nat) (x : list A) :
  i < length x -> j < length x ->
  exists x', swap i j x = Ok x' /\ x' ≡ₚ x.
Proof.
  intros Hi Hj. unfold swap.
  destruct (lookup_lt_is_Some_2 x i Hi) as [a Ha].
  destruct (lookup_lt_is_Some_2 x j Hj) as [b Hb].
  rewrite Ha, Hb. eexists; split; [done|].
  destruct (decide (i = j)) as [->|Hne].
  - rewrite list_insert_insert_eq. by rewrite list_insert_id by done.
  - assert (Hb' : <[i := b]> x !! j = Some b)
      by (by rewrite list_lookup_insert_ne).
    rewrite (insert_Permutation _ j b a Hb').
    etrans; [|symmetry; apply (delete_Permutation x i a Ha)].
    f_equiv.
    apply (Permutation_cons_inv (a := b)).
    etrans; [symmetry; apply (delete_Permutation _ j b Hb')|].
    apply (insert_Permutation x i a b Ha).
Qed.

Section Shuffle.

Context {G : RandomGen}.

Lemma shuffle_from_Permutation {A} (i : nat) (g : rng) (x : list A) :
  i <= length x - 1 ->
  exists x', shuffle_from i g x = Ok x' /\ x' ≡ₚ x.
Proof.
  revert g x. induction i as [|i IH]; intros g x Hi; simpl.
  - by exists x.
  - pose proof (randbelow_lt g (S (S i)) ltac:(lia)) as Hj.
    destruct (randbelow g (S (S i))) as [j g']. simpl in Hj.
    destruct (swap_Permutation (S i) j x) as (x1 & -> & Hx1); [lia..|].
    simpl.
    destruct (IH g' x1) as (x' & Hx' & Hperm).
    { rewrite (Permutation_length Hx1). lia. }
    exists x'. split; [done|]. by rewrite Hperm.
Qed.

(** [shuffle] never fails and rearranges its argument. *)
Lemma shuffle_Permutation {A} (g : rng) (x : list A) :
  exists x', shuffle g x = Ok x' /\ x' ≡ₚ x.
Proof. by apply shuffle_from_Permutation. Qed.

End Shuffle.

(** ** Counting residues *)

Lemma div_mod_succ (c n : nat) :
  0 < c ->
  (S (n mod c) < c /\ S n / c = n / c /\ S n mod c = S (n mod c)) \/
  (S (n mod c) = c /\ S n / c = S (n / c) /\ S n mod c = 0).
Proof.
  intros Hc.
  pose proof (Nat.div_mod_eq n c) as Hn.
  pose proof (Nat.mod_upper_bound n c ltac:(lia)) as Hr.
  destruct (decide (S (n mod c) < c)) as [Hlt|Hge]; [left|right].
  - split; [done|]. split.
    + symmetry. apply (Nat.div_unique _ _ _ (S (n mod c))); lia.
    + symmetry. apply (Nat.mod_unique _ _ (n / c)); lia.
  - split; [lia|]. split.
    + symmetry. apply (Nat.div_unique _ _ _ 0); lia.
    + symmetry. apply (Nat.mod_unique _ _ (S (n / c))); lia.
Qed.

Lemma count_mod_S (c n k : nat) :
  count_mod c (S n) k =
  count_mod c n k + (if decide (n mod c = k) then 1 else 0).
Proof.
  unfold count_mod. rewrite seq_S, filter_app, length_app. simpl.
  f_equal. rewrite filter_cons, filter_nil. by case_decide.
Qed.

Lemma count_mod_formula (c n k : nat) :
  0 < c -> k < c ->
  count_mod c n k = n / c + (if decide (k < n mod c) then 1 else 0).
Proof.
  intros Hc Hk. induction n as [|n IH].
  - rewrite Nat.Div0.div_0_l, Nat.Div0.mod_0_l. by case_decide; [lia|].
  - rewrite count_mod_S, IH.
    destruct (div_mod_succ c n Hc) as [(? & -> & ->)|(? & -> & ->)];
      repeat case_decide; lia.
Qed.

Lemma count_mod_spread (c n j k : nat) :
  0 < c -> j < c -> k < c -> count_mod c n j <= count_mod c n k + 1.
Proof.
  intros. rewrite !count_mod_formula by done. repeat case_decide; lia.
Qed.

(** ** Round-robin distribution *)

Lemma length_picks {A} (c i : nat) (xs : list A) (k : nat) :
  length (picks c i xs k) =
  length (filter (fun n => n mod c = k) (seq i (length xs))).
Proof.
  revert i. induction xs as [|x xs IH]; intros i; simpl; [done|].
  rewrite length_app, IH, filter_cons. by case_decide.
Qed.

Lemma length_picks_0 {A} (c : nat) (xs : list A) (k : nat) :
  length (picks c 0 xs k) = count_mod c (length xs) k.
Proof. apply length_picks. Qed.

Lemma picks_fmap {A B} (f : A -> B) (c i : nat) (xs : list A) (k : nat) :
  picks c i (f <$> xs) k = f <$> picks c i xs k.
Proof.
  revert i. induction xs as [|x xs IH]; intros i; simpl; [done|].
  rewrite fmap_app, IH. by case_decide.
Qed.

Lemma picks_sublist {A} (c i : nat) (xs : list A) (k : nat) :
  picks c i xs k `sublist_of` xs.
Proof.
  revert i. induction xs as [|x xs IH]; intros i; simpl; [done|].
  case_decide; simpl; [by apply sublist_skip|by apply sublist_cons].
Qed.

Lemma round_robin_picks {A} (c i : nat) (xs : list A) (groups : list (list A)) :
  0 < c -> length groups = c ->
  round_robin c i xs groups =
  Ok (imap (fun k grp => grp ++ picks c i xs k) groups).
Proof.
  intros Hc. revert i groups.
  induction xs as [|x xs IH]; intros i groups Hlen; simpl.
  - f_equal. apply list_eq; intros k. rewrite list_lookup_imap.
    destruct (groups !! k); simpl; [|done]. by rewrite app_nil_r.
  - pose proof (Nat.mod_upper_bound i c ltac:(lia)) as Hj.
    unfold append_at.
    destruct (lookup_lt_is_Some_2 groups (i mod c) ltac:(lia)) as [grp Hgrp].
    rewrite Hgrp. simpl. rewrite IH by (by rewrite length_insert).
    f_equal. apply list_eq; intros k. rewrite !list_lookup_imap.
    destruct (decide (i mod c = k)) as [<-|Hne].
    + rewrite list_lookup_insert_eq, Hgrp by lia. simpl.
      by rewrite <- (assoc_L (++)).
    + by rewrite list_lookup_insert_ne.
Qed.

Lemma append_at_Permutation {A} (j : nat) (x : A) (grp : list A)
    (groups : list (list A)) :
  groups !! j = Some grp ->
  concat (<[j := grp ++ [x]]> groups) ≡ₚ x :: concat groups.
Proof.
  revert j. induction groups as [|g0 groups IH]; intros [|j] Hj;
    simplify_eq/=.
  - rewrite <- (assoc_L (++)). simpl. by rewrite <- Permutation_middle.
  - rewrite (IH j Hj). by rewrite <- Permutation_middle.
Qed.

Lemma round_robin_Permutation {A} (c i : nat) (xs : list A)
    (groups groups' : list (list A)) :
  round_robin c i xs groups = Ok groups' ->
  concat groups' ≡ₚ concat groups ++ xs.
Proof.
  revert i groups. induction xs as [|x xs IH]; intros i groups; simpl.
  - intros [= ->]. by rewrite app_nil_r.
  - intros (groups1 & Happ & Hrest)%bind_Ok.
    rewrite (IH _ _ Hrest). unfold append_at in Happ.
    destruct (groups !! (i mod c)) as [grp|] eqn:Hgrp; simplify_eq.
    rewrite (append_at_Permutation _ _ _ _ Hgrp).
    by rewrite <- Permutation_middle.
Qed.

(** ** Dictionaries *)

Lemma set_fresh {V} (k : string) (v : V) (d : dict V) :
  k ∉ keys d -> set k v d = d ++ [(k, v)].
Proof.
  unfold keys. induction d as [|[k' v'] d IH]; simpl; [done|].
  intros Hk. rewrite not_elem_of_cons in Hk. destruct Hk as [Hne Hk].
  case_decide; [congruence|]. by rewrite IH.
Qed.

Lemma keys_cons {V} (k : string) (v : V) (d : dict V) :
  keys ((k, v) :: d) = k :: keys d.
Proof. done. Qed.

(** ** assign_topics_evenly *)

Lemma cycle_S (topics : list string) (t i n : nat) :
  cycle topics t i (S n) =
  default "" (topics !! (i mod t)) :: cycle topics t (S i) n.
Proof. done. Qed.

Lemma length_cycle (topics : list string) (t i n : nat) :
  length (cycle topics t i n) = n.
Proof. unfold cycle. by rewrite length_fmap, length_seq. Qed.

Lemma cycle_elem_of (topics : list string) (i n : nat) (topic : string) :
  topics <> [] ->
  topic ∈ cycle topics (length topics) i n -> topic ∈ topics.
Proof.
  intros Hne. unfold cycle. intros (k & -> & _)%list_elem_of_fmap.
  assert (k mod length topics < length topics) as Hk.
  { apply Nat.mod_upper_bound. by destruct topics. }
  destruct (lookup_lt_is_Some_2 _ _ Hk) as [x Hx]. rewrite Hx. simpl.
  by eapply list_elem_of_lookup_2.
Qed.

Lemma assign_loop_zip (topics : list string) (i : nat)
    (l : list string) (m : dict string) :
  topics <> [] -> NoDup (keys m ++ l) ->
  assign_loop topics (length topics) i l m =
  Ok (m ++ zip l (cycle topics (length topics) i (length l))).
Proof.
  intros Hne. revert i m.
  induction l as [|s l IH]; intros i m Hnd; cbn [assign_loop length].
  - simpl. by rewrite app_nil_r.
  - assert (i mod length topics < length topics) as Hk.
    { apply Nat.mod_upper_bound. by destruct topics. }
    destruct (lookup_lt_is_Some_2 _ _ Hk) as [topic Htopic].
    rewrite Htopic.
    apply NoDup_app in Hnd as (Hm & Hdisj & [Hs Hl]%NoDup_cons).
    rewrite set_fresh by (intros Hin; eapply Hdisj; [done|left]).
    rewrite IH.
    + rewrite cycle_S, Htopic. simpl. by rewrite <- (assoc_L (++)).
    + unfold keys. rewrite fmap_app. simpl. rewrite <- (assoc_L (++)). simpl.
      apply NoDup_app. split; [done|]. split; [|by apply NoDup_cons].
      intros x Hx. by apply Hdisj.
Qed.

Lemma bucket_size_zip (l vs : list string) (topic : string) :
  length l = length vs ->
  bucket_size (zip l vs) topic = length (filter (fun v => v = topic) vs).
Proof.
  unfold bucket_size. revert vs.
  induction l as [|s l IH]; intros [|v vs] Hlen; try done.
  injection Hlen as Hlen.
  change (zip (s :: l) (v :: vs)) with ((s, v) :: zip l vs).
  rewrite (filter_cons (fun v => v = topic)).
  rewrite (filter_cons (fun p : string * string => p.2 = topic)).
  cbn [snd]. case_decide; cbn [length]; by rewrite IH.
Qed.

Lemma length_filter_fmap {A B} (f : A -> B) (P : B -> Prop)
    `{!forall x, Decision (P x)} (l : list A) :
  length (filter P (f <$> l)) = length (filter (fun x => P (f x)) l).
Proof.
  induction l as [|x l IH]; [done|].
  rewrite fmap_cons, (filter_cons P), (filter_cons (fun x => P (f x))).
  case_decide; cbn [length]; by rewrite IH.
Qed.

Lemma count_cycle (topics : list string) (n j : nat) (topic : string) :
  NoDup topics -> topics !! j = Some topic ->
  length (filter (fun v => v = topic) (cycle topics (length topics) 0 n)) =
  count_mod (length topics) n j.
Proof.
  intros Hnd Hj. unfold cycle, count_mod. rewrite length_filter_fmap.
  f_equal. apply list_filter_iff. intros i.
  assert (i mod length topics < length topics) as Hk.
  { apply Nat.mod_upper_bound. by destruct topics. }
  destruct (lookup_lt_is_Some_2 _ _ Hk) as [x Hx]. rewrite Hx. simpl.
  split.
  - intros ->. by eapply NoDup_lookup.
  - intros <-. congruence.
Qed.

Section Assign.

Context {G : RandomGen}.

(** The assignment pairs a rearrangement of the roster with the topic
    list repeated cyclically. *)
Lemma assign_topics_evenly_zip (R T : list string) (s : Z) :
  NoDup R -> T <> [] ->
  exists l, l ≡ₚ R /\
    assign_topics_evenly R T s =
    Ok (zip l (cycle T (length T) 0 (length R))).
Proof.
  intros HR HT. unfold assign_topics_evenly.
  destruct (shuffle_Permutation (rng_seed s) R) as (l & -> & Hl).
  exists l. split; [done|]. simpl.
  assert (max 1 (length T) = length T) as -> by (destruct T; simpl in *; [done|lia]).
  rewrite assign_loop_zip; [|done|by rewrite Hl].
  by rewrite (Permutation_length Hl).
Qed.

Lemma assign_topics_evenly_bucket (R T : list string) (s : Z) :
  NoDup R -> NoDup T -> T <> [] ->
  exists m, assign_topics_evenly R T s = Ok m /\
    keys m ≡ₚ R /\
    (forall learner topic, (learner, topic) ∈ m -> topic ∈ T) /\
    (forall j topic, T !! j = Some topic ->
       bucket_size m topic = count_mod (length T) (length R) j).
Proof.
  intros HR HT Hne.
  destruct (assign_topics_evenly_zip R T s HR Hne) as (l & Hl & ->).
  pose proof (Permutation_length Hl) as Hlen.
  eexists; split; [done|]. split; [|split].
  - unfold keys. rewrite fst_zip; [done|]. rewrite length_cycle. lia.
  - intros learner topic Hin. apply (cycle_elem_of T 0 (length R)); [done|].
    apply (elem_of_zip_r _ _ _ _ Hin).
  - intros j topic Hj. rewrite bucket_size_zip by (by rewrite length_cycle).
    by apply count_cycle.
Qed.

End Assign.

(** ** invert_to_experts *)

#[global] Instance string_le_total : Total string_le.
Proof. intros a b. apply String.leb_total. Qed.

Lemma sort_alphabetical (l : list string) : alphabetical (sort l).
Proof. apply (Sorted_merge_sort string_le). Qed.

Lemma sort_Permutation (l : list string) : sort l ≡ₚ l.
Proof. apply (merge_sort_Permutation string_le). Qed.

Lemma add_expert_nil (student topic : string) :
  add_expert [] (student, topic) = [(topic, [student])].
Proof.
  unfold add_expert, setdefault. simpl. by case_decide.
Qed.

Lemma add_expert_cons (k : string) (v : list string)
    (e : dict (list string)) (student topic : string) :
  add_expert ((k, v) :: e) (student, topic) =
  if decide (k = topic) then (k, v ++ [student]) :: e
  else (k, v) :: add_expert e (student, topic).
Proof.
  unfold add_expert, setdefault. simpl. case_decide as Hk.
  - simpl. by rewrite decide_True.
  - destruct (get topic e); simpl; by rewrite !decide_False.
Qed.

Lemma keys_add_expert (e : dict (list string)) (student topic : string) :
  keys (add_expert e (student, topic)) =
  if decide (topic ∈ keys e) then keys e else keys e ++ [topic].
Proof.
  induction e as [|[k v] e IH].
  - by rewrite add_expert_nil.
  - rewrite add_expert_cons, (keys_cons k v e).
    destruct (decide (k = topic)) as [->|Hne].
    + rewrite keys_cons. rewrite decide_True; [done|]. left.
    + rewrite keys_cons, IH.
      destruct (decide (topic ∈ keys e)) as [Hin|Hin].
      * rewrite decide_True; [done|]. by right.
      * rewrite decide_False; [done|]. rewrite elem_of_cons.
        intros [Heq|?]; [by apply Hne|done].
Qed.

Lemma NoDup_keys_add_expert (e : dict (list string)) (entry : string * string) :
  NoDup (keys e) -> NoDup (keys (add_expert e entry)).
Proof.
  destruct entry as [student topic]. intros Hnd.
  rewrite keys_add_expert. case_decide as Hin; [done|].
  apply NoDup_app. split; [done|]. split; [|apply NoDup_singleton].
  intros x Hx ->%list_elem_of_singleton. done.
Qed.

Lemma pairs_of_cons (k : string) (v : list string) (e : dict (list string)) :
  pairs_of ((k, v) :: e) = ((fun student => (student, k)) <$> v) ++ pairs_of e.
Proof. done. Qed.

Lemma pairs_of_add_expert (e : dict (list string)) (student topic : string) :
  pairs_of (add_expert e (student, topic)) ≡ₚ (student, topic) :: pairs_of e.
Proof.
  induction e as [|[k v] e IH].
  - by rewrite add_expert_nil.
  - rewrite add_expert_cons. case_decide as Hk.
    + subst. rewrite !pairs_of_cons, fmap_app. simpl.
      rewrite <- (assoc_L (++)). simpl. by rewrite <- Permutation_middle.
    + rewrite !pairs_of_cons, IH. by rewrite <- Permutation_middle.
Qed.

Lemma nonempty_add_expert (e : dict (list string)) (entry : string * string) :
  Forall (fun b => b.2 <> []) e ->
  Forall (fun b => b.2 <> []) (add_expert e entry).
Proof.
  destruct entry as [student topic].
  induction e as [|[k v] e IH]; intros He.
  - rewrite add_expert_nil. by repeat constructor.
  - rewrite add_expert_cons. inversion_clear He as [|?? Hv He'].
    case_decide; constructor; simpl; auto.
    by destruct v.
Qed.

(** The first loop of [invert_to_experts], started from the mapping [e]. *)
Lemma collect_experts (a : dict string) (e : dict (list string)) :
  NoDup (keys e) -> Forall (fun b => b.2 <> []) e ->
  NoDup (keys (foldl add_expert e a)) /\
  Forall (fun b => b.2 <> []) (foldl add_expert e a) /\
  pairs_of (foldl add_expert e a) ≡ₚ pairs_of e ++ a.
Proof.
  revert e. induction a as [|[student topic] a IH]; intros e Hnd Hne; simpl.
  - by rewrite app_nil_r.
  - destruct (IH (add_expert e (student, topic))) as (H1 & H2 & H3).
    + by apply NoDup_keys_add_expert.
    + by apply nonempty_add_expert.
    + split; [done|]. split; [done|].
      rewrite H3, pairs_of_add_expert. by rewrite <- Permutation_middle.
Qed.

Lemma keys_sorted (e : dict (list string)) :
  keys ((fun '(k, members) => (k, sort members)) <$> e) = keys e.
Proof.
  unfold keys. rewrite <- list_fmap_compose. apply list_fmap_ext.
  by intros _ [k v] _.
Qed.

Lemma pairs_of_sorted (e : dict (list string)) :
  pairs_of ((fun '(k, members) => (k, sort members)) <$> e) ≡ₚ pairs_of e.
Proof.
  induction e as [|[k v] e IH]; [done|].
  rewrite fmap_cons, !pairs_of_cons, IH. by rewrite sort_Permutation.
Qed.

Lemma pairs_of_fst (e : dict (list string)) :
  (pairs_of e).*1 = concat (values e).
Proof.
  induction e as [|[k v] e IH]; [done|].
  rewrite pairs_of_cons, fmap_app, IH. simpl. f_equal.
  rewrite <- list_fmap_compose. by rewrite list_fmap_id.
Qed.

Lemma elem_of_pairs_of (e : dict (list string)) (student topic : string) :
  (student, topic) ∈ pairs_of e <->
  exists members, (topic, members) ∈ e /\ student ∈ members.
Proof.
  unfold pairs_of. rewrite list_elem_of_bind. split.
  - intros ([k v] & Hin & He). apply list_elem_of_fmap in Hin as (s & [= -> ->] & Hs).
    eauto.
  - intros (members & He & Hs). exists (topic, members). split; [|done].
    apply list_elem_of_fmap. eauto.
Qed.

(** The mapping returned by [invert_to_experts] lists the pairs of the
    assignment, under distinct topics, in non-empty sorted buckets. *)
Lemma invert_to_experts_pairs (a : dict string) :
  let e := invert_to_experts a in
  NoDup (keys e) /\ pairs_of e ≡ₚ a /\
  Forall (fun b => b.2 <> [] /\ alphabetical b.2) e.
Proof.
  unfold invert_to_experts.
  destruct (collect_experts a []) as (H1 & H2 & H3); [constructor..|].
  simpl. split; [by rewrite keys_sorted|]. split.
  - by rewrite pairs_of_sorted, H3.
  - apply Forall_fmap. eapply Forall_impl; [apply H2|].
    intros [k v] Hv. simpl in *. split; [|apply sort_alphabetical].
    intros Hnil. apply Hv. apply Permutation_nil_r.
    rewrite <- Hnil. symmetry. apply sort_Permutation.
Qed.

(** ** build_stammgruppen *)

Lemma get_Some_elem_of {V} (k : string) (v : V) (d : dict V) :
  get k d = Some v -> (k, v) ∈ d.
Proof.
  induction d as [|[k' v'] d IH]; simpl; [done|].
  case_decide; [intros [= ->]; subst; left|intros ?; right; auto].
Qed.

Lemma get_cons_ne {V} (k k' : string) (v : V) (d : dict V) :
  k' <> k -> get k ((k', v) :: d) = get k d.
Proof. intros. simpl. by rewrite decide_False. Qed.

Lemma bind_ext_elem_of {A B} (f g : A -> list B) (l : list A) :
  (forall x, x ∈ l -> f x = g x) -> l ≫= f = l ≫= g.
Proof.
  induction l as [|a l IH]; intros Hfg; [done|].
  rewrite !bind_cons, IH, (Hfg a); [done|by left|].
  intros x Hx. apply Hfg. by right.
Qed.

(** Reading every key of a dictionary yields its entries. *)
Lemma bind_keys_get (e : dict (list string)) :
  NoDup (keys e) ->
  keys e ≫= (fun topic =>
    (fun student => (student, topic)) <$> default [] (get topic e)) =
  pairs_of e.
Proof.
  induction e as [|[k v] e IH]; [done|].
  rewrite keys_cons, NoDup_cons. intros [Hk Hnd].
  rewrite bind_cons, pairs_of_cons. simpl. rewrite decide_True by done.
  simpl. f_equal. rewrite <- (IH Hnd).
  apply bind_ext_elem_of. intros topic Hin.
  rewrite decide_False; [done|]. by intros ->.
Qed.

Lemma count_mod_le_1 (c n k : nat) :
  0 < c -> k < c -> n <= c -> count_mod c n k <= 1.
Proof.
  intros Hc Hk Hn. rewrite count_mod_formula by done.
  destruct (decide (n = c)) as [->|Hne].
  - rewrite Nat.div_same, Nat.Div0.mod_same by lia. case_decide; lia.
  - rewrite Nat.div_small by lia. case_decide; lia.
Qed.

(** A topic with at most [n] experts gives every home group at most one
    of them. *)
Lemma picks_topic (n k : nat) (topic : string) (members : list string) :
  0 < n -> k < n -> length members <= n ->
  (picks n 0 ((fun student => (student, topic)) <$> members) k).*2
    `sublist_of` [topic].
Proof.
  intros Hn Hk Hlen. rewrite picks_fmap.
  pose proof (length_picks_0 n members k) as Hp.
  pose proof (count_mod_le_1 n (length members) k Hn Hk Hlen).
  destruct (picks n 0 members k) as [|s [|s' p]]; simpl in *; [|done|lia].
  apply sublist_nil_l.
Qed.

Lemma place_topics_spec (e : dict (list string)) (n : nat)
    (topics : list string) (groups : list (list (string * string))) :
  0 < n -> length groups = n ->
  (forall topic, topic ∈ topics -> length (default [] (get topic e)) <= n) ->
  exists groups',
    place_topics e n topics groups = Ok groups' /\
    length groups' = n /\
    concat groups' ≡ₚ
      concat groups ++
      (topics ≫= fun topic =>
         (fun student => (student, topic)) <$> default [] (get topic e)) /\
    forall k g', groups' !! k = Some g' ->
      exists g sub,
        groups !! k = Some g /\ g' = g ++ sub /\ sub.*2 `sublist_of` topics.
Proof.
  intros Hn. revert groups.
  induction topics as [|topic rest IH]; intros groups Hlen Hbound; simpl.
  - exists groups. split; [done|]. split; [done|]. split.
    + by rewrite app_nil_r.
    + intros k g' Hk. exists g', []. by rewrite app_nil_r.
  - set (xs := (fun student => (student, topic)) <$> default [] (get topic e)).
    pose proof (round_robin_picks n 0 xs groups Hn Hlen) as Hrr.
    rewrite Hrr. simpl.
    destruct (IH (imap (fun k grp => grp ++ picks n 0 xs k) groups))
      as (groups' & Hplace & Hlen' & Hperm & Hsub).
    { by rewrite length_imap. }
    { intros t Ht. apply Hbound. by right. }
    exists groups'. split; [done|]. split; [done|]. split.
    + rewrite Hperm, (round_robin_Permutation _ _ _ _ _ Hrr).
      by rewrite <- (assoc_L (++)).
    + intros k g' Hk.
      destruct (Hsub k g' Hk) as (g1 & sub & Hg1 & -> & Hsub').
      rewrite list_lookup_imap in Hg1.
      destruct (groups !! k) as [g|] eqn:Hg; [|done].
      simpl in Hg1. injection Hg1 as <-.
      exists g, (picks n 0 xs k ++ sub). split; [done|].
      split; [by rewrite <- (assoc_L (++))|].
      rewrite fmap_app. apply (sublist_app _ [topic] _ rest); [|done].
      apply picks_topic; [done| |].
      * apply lookup_lt_Some in Hg. lia.
      * apply Hbound. by left.
Qed.

Lemma build_stammgruppen_spec (e : dict (list string)) :
  NoDup (keys e) ->
  exists groups,
    build_stammgruppen e = Ok groups /\
    length groups = max_list (length <$> values e) /\
    concat groups ≡ₚ pairs_of e /\
    Forall (fun g => NoDup g.*2) groups.
Proof.
  intros Hnd. unfold build_stammgruppen.
  destruct (keys e) as [|k0 ks] eqn:Hks.
  { apply fmap_nil_inv in Hks as ->. by exists []. }
  rewrite <- Hks in *. clear k0 ks Hks.
  set (n := max_list (length <$> values e)).
  assert (forall ms, ms ∈ values e -> length ms <= n) as Hmax.
  { intros ms Hms. apply max_list_elem_of_le, list_elem_of_fmap. eauto. }
  case_decide as Hn.
  - exists []. split; [done|]. split; [done|]. split; [|constructor].
    clearbody n. subst n. unfold values in Hmax. clear Hnd.
    induction e as [|[k v] e IH]; [done|].
    rewrite pairs_of_cons.
    assert (v = []) as ->.
    { specialize (Hmax v ltac:(left)). destruct v; simpl in *; [done|lia]. }
    simpl. apply IH. intros ms Hms. apply Hmax. by right.
  - destruct (place_topics_spec e n (keys e) (replicate n []))
      as (groups & Hplace & Hlen & Hperm & Hsub);
      [lia|by rewrite length_replicate| |].
    { intros topic _. destruct (get topic e) as [ms|] eqn:Hget; simpl; [|lia].
      apply Hmax. apply get_Some_elem_of in Hget. unfold values.
      apply list_elem_of_fmap. by exists (topic, ms). }
    exists groups. split; [done|]. split; [done|]. split.
    + rewrite Hperm, bind_keys_get by done.
      assert (concat (replicate n ([] : list (string * string))) = []) as ->;
        [|done].
      clear. induction n; simpl; auto.
    + apply Forall_forall. intros g [k Hk]%list_elem_of_lookup.
      destruct (Hsub k g Hk) as (g0 & sub & Hg0 & -> & Hsub').
      apply lookup_replicate in Hg0 as [-> _]. simpl.
      by eapply sublist_NoDup.
Qed.

(** ** build_simple_groups *)

Lemma concat_replicate_nil {A} (n : nat) :
  concat (replicate n ([] : list A)) = [].
Proof. induction n; simpl; auto. Qed.

Section SimpleGroups.

Context {G : RandomGen}.

Lemma build_simple_groups_empty (R : list string) (gc : Z)
    (seed : option Z) (entropy : rng) :
  (gc <= 0)%Z \/ R = [] -> build_simple_groups R gc seed entropy = Ok [].
Proof. intros H. unfold build_simple_groups. by rewrite decide_True. Qed.

Lemma build_simple_groups_spec (R : list string) (gc : Z)
    (seed : option Z) (entropy : rng) :
  (0 < gc)%Z -> R <> [] ->
  exists groups,
    build_simple_groups R gc seed entropy = Ok groups /\
    length groups = Z.to_nat (Z.min gc (Z.of_nat (length R))) /\
    concat groups ≡ₚ R /\
    forall k g, groups !! k = Some g ->
      length g = count_mod (length groups) (length R) k.
Proof.
  intros Hgc HR. unfold build_simple_groups.
  rewrite decide_False by (intros [?|?]; [lia|done]).
  set (c := Z.to_nat (Z.min gc (Z.of_nat (length R)))).
  assert (0 < c) as Hc.
  { destruct R; [done|]. subst c. simpl length. lia. }
  destruct (shuffle_Permutation
              (match seed with Some s => rng_seed s | None => entropy end) R)
    as (l & -> & Hl).
  simpl.
  pose proof (round_robin_picks c 0 l (replicate c []) Hc
                (length_replicate _ _)) as Hrr.
  rewrite Hrr. eexists. split; [done|].
  split; [by rewrite length_imap, length_replicate|]. split.
  - rewrite (round_robin_Permutation _ _ _ _ _ Hrr), concat_replicate_nil.
    done.
  - intros k g. rewrite length_imap, length_replicate, list_lookup_imap.
    destruct (replicate c [] !! k) as [g0|] eqn:Hk; [|done].
    apply lookup_replicate in Hk as [-> _]. simpl. intros [= <-].
    by rewrite length_picks_0, (Permutation_length Hl).
Qed.

End SimpleGroups.

(** ** The timer *)

Lemma tick_running (f : PhaseFrame) :
  running (state f) = true -> (0 < seconds_left (state f))%Z ->
  state (_tick f) =
    with_timer (phase (state f)) (seconds_left (state f) - 1) true (state f) /\
  signals (_tick f) = signals f.
Proof.
  intros Hrun Hsec. unfold _tick. rewrite Hrun, decide_True by done. done.
Qed.

Lemma tick_elapsed (f : PhaseFrame) :
  running (state f) = true -> (seconds_left (state f) <= 0)%Z ->
  state (_tick f) =
    with_timer (phase (state f)) (seconds_left (state f)) false (state f) /\
  signals (_tick f) = signals f ++ [Bell].
Proof.
  intros Hrun Hsec. unfold _tick. rewrite Hrun, decide_False by lia. done.
Qed.

Lemma tick_stopped (f : PhaseFrame) :
  running (state f) = false -> _tick f = f.
Proof. intros Hrun. unfold _tick. by rewrite Hrun. Qed.

(** [n] ticks of a running timer with at least [n] seconds left. *)
Lemma tick_iter (n : nat) (f : PhaseFrame) :
  running (state f) = true -> (Z.of_nat n <= seconds_left (state f))%Z ->
  state (Nat.iter n _tick f) =
    with_timer (phase (state f)) (seconds_left (state f) - Z.of_nat n) true
      (state f) /\
  signals (Nat.iter n _tick f) = signals f.
Proof.
  intros Hrun. induction n as [|n IH]; intros Hsec.
  - simpl. split; [|done]. destruct f as [[] ? ? ? ? ?]. simpl in *.
    unfold with_timer. simpl. f_equal; [lia|done].
  - destruct IH as [Hst Hsig]; [lia|].
    rewrite Nat.iter_succ.
    destruct (tick_running (Nat.iter n _tick f)) as [Hst' Hsig'].
    { by rewrite Hst. }
    { rewrite Hst. simpl. lia. }
    rewrite Hst', Hsig', Hst, Hsig. split; [|done].
    unfold with_timer. simpl. f_equal. lia.
Qed.

(** ** Recomputation of the groups *)

Lemma render_Ok (f : PhaseFrame) :
  (1 <= phase (state f) <= 3)%Z ->
  exists f',
    _render f = Ok f' /\ state f' = state f /\ signals f' = signals f /\
    _timer_job f' = _timer_job f /\ jobs f' = jobs f.
Proof.
  intros Hph. unfold _render. rewrite decide_True by lia.
  case_decide; by eexists.
Qed.

Lemma render_KeyError (f : PhaseFrame) :
  (phase (state f) < 1 \/ 3 < phase (state f))%Z ->
  _render f = Raise KeyError.
Proof. intros Hph. unfold _render. by rewrite decide_False by lia. Qed.

Lemma state_render (f f' : PhaseFrame) :
  _render f = Ok f' -> state f' = state f.
Proof. unfold _render. repeat case_decide; by intros [= <-]. Qed.

Lemma signals_render (f f' : PhaseFrame) :
  _render f = Ok f' -> signals f' = signals f.
Proof. unfold _render. repeat case_decide; by intros [= <-]. Qed.

Lemma build_stammgruppen_invert (a : dict string) :
  exists groups, build_stammgruppen (invert_to_experts a) = Ok groups.
Proof.
  destruct (invert_to_experts_pairs a) as (Hnd & _ & _).
  destruct (build_stammgruppen_spec _ Hnd) as (groups & Hg & _). eauto.
Qed.

(** ** Callers of the engine and the remaining timer operations *)

Section Reshuffle.

Context {G : RandomGen}.

(** [_reshuffle] does not call the engine outside phase 1 or without
    students or topics: it warns and leaves the state as it is. *)
Lemma reshuffle_guard (drawn : Z) (f : PhaseFrame) :
  phase (state f) <> 1%Z \/ students (state f) = [] \/ topics (state f) = [] ->
  exists warning,
    _reshuffle drawn f = Ok (emit warning f) /\ state (emit warning f) = state f.
Proof.
  intros Hguard. unfold _reshuffle.
  destruct (decide (phase (state f) <> 1%Z)) as [Hph|Hph]; [by eexists|].
  rewrite decide_True by (destruct Hguard as [?|?]; done).
  by eexists.
Qed.

(** In phase 1, with unique students and topics, [_reshuffle] installs the
    assignment of the drawn seed together with its derived groups. *)
Lemma reshuffle_applies (drawn : Z) (f : PhaseFrame) :
  phase (state f) = 1%Z ->
  NoDup (students (state f)) -> students (state f) <> [] ->
  topics (state f) <> [] ->
  exists f',
    _reshuffle drawn f = Ok f' /\
    seed (state f') = drawn /\
    assign_topics_evenly (students (state f)) (topics (state f)) drawn =
      Ok (assignment (state f')) /\
    experts (state f') = invert_to_experts (assignment (state f')) /\
    build_stammgruppen (experts (state f')) = Ok (stammgruppen (state f')).
Proof.
  intros Hph Hnd Hs Ht. unfold _reshuffle.
  rewrite decide_False by (by intros ?).
  rewrite decide_False by (by intros [?|?]).
  destruct (assign_topics_evenly_zip _ _ drawn Hnd Ht) as (l & _ & Ha).
  rewrite Ha. simpl.
  destruct (build_stammgruppen_invert
              (zip l (cycle (topics (state f)) (length (topics (state f))) 0
                        (length (students (state f)))))) as (groups & Hg).
  rewrite Hg. simpl.
  match goal with
  | |- context [_render ?x] => destruct (render_Ok x) as (f' & Hr & Hst & _)
  end; [simpl; lia|].
  exists f'. split; [done|]. by rewrite Hst.
Qed.

End Reshuffle.

(** [_plus_minute] adds 60 seconds in every phase, running or not. *)
Lemma plus_minute_adds (f : PhaseFrame) :
  seconds_left (state (_plus_minute f)) = (seconds_left (state f) + 60)%Z /\
  running (state (_plus_minute f)) = running (state f) /\
  phase (state (_plus_minute f)) = phase (state f).
Proof. done. Qed.

(** [_toggle] flips [running]; pausing keeps the seconds left, starting
    runs the first tick at once. *)
Lemma toggle_pauses (f : PhaseFrame) :
  running (state f) = true ->
  running (state (_toggle f)) = false /\
  seconds_left (state (_toggle f)) = seconds_left (state f).
Proof. intros Hrun. unfold _toggle. simpl. by rewrite Hrun. Qed.

Lemma toggle_starts (f : PhaseFrame) :
  running (state f) = false -> (0 < seconds_left (state f))%Z ->
  running (state (_toggle f)) = true /\
  seconds_left (state (_toggle f)) = (seconds_left (state f) - 1)%Z.
Proof.
  intros Hrun Hsec. unfold _toggle. simpl. rewrite Hrun. simpl.
  unfold _tick. simpl. by rewrite decide_True.
Qed.

(** * The claims of the specification *)

(** ** Topic assignment *)

(** C1: for every roster [R] of unique learner names, every topic list
    [T] of at least one topic (a topic list names every topic once), and
    every seed,
    [assign_topics_evenly] returns an assignment whose keys are exactly
    the learners of [R], each learner with one topic of [T], and the
    numbers of learners of any two topics of [T] differ by at most 1. *)
Theorem assign_topics_evenly_even {G : RandomGen} (R T : list string) (s : Z) :
  NoDup R -> NoDup T -> 1 <= length T ->
  exists m,
    assign_topics_evenly R T s = Ok m /\
    keys m ≡ₚ R /\ NoDup (keys m) /\
    (forall learner topic, (learner, topic) ∈ m -> topic ∈ T) /\
    (forall t1 t2, t1 ∈ T -> t2 ∈ T ->
       bucket_size m t1 <= bucket_size m t2 + 1).
Proof.
  intros HR HT Hlen.
  assert (T <> []) as Hne by (destruct T; simpl in *; [lia|done]).
  destruct (assign_topics_evenly_bucket R T s HR HT Hne)
    as (m & Hm & Hkeys & Hval & Hsize).
  exists m. split; [done|]. split; [done|].
  split; [by rewrite Hkeys|]. split; [done|].
  intros t1 t2 [j1 Hj1]%list_elem_of_lookup [j2 Hj2]%list_elem_of_lookup.
  rewrite (Hsize j1 t1 Hj1), (Hsize j2 t2 Hj2).
  apply count_mod_spread; [lia|by eapply lookup_lt_Some..].
Qed.

Lemma assign_topics_evenly_even_sample :
  exists m,
    @assign_topics_evenly lcg sample_roster sample_topics 1 = Ok m /\
    keys m ≡ₚ sample_roster /\ NoDup (keys m) /\
    (forall learner topic, (learner, topic) ∈ m -> topic ∈ sample_topics) /\
    (forall t1 t2, t1 ∈ sample_topics -> t2 ∈ sample_topics ->
       bucket_size m t1 <= bucket_size m t2 + 1).
Proof.
  apply (assign_topics_evenly_even (G := lcg) sample_roster sample_topics 1).
  - by_computation.
  - by_computation.
  - simpl. lia.
Defined.

(** Why the topics are asked to be different: the function deals them by
    position, so that a list which named a topic more than once would
    fill that topic from several positions.  With X, X, X, Y and four
    learners, X receives three learners and Y one, whatever the seed. *)
Lemma assign_topics_evenly_repeated_topic :
  NoDup ["A"; "B"; "C"; "D"] /\
  forall (G : RandomGen) (s : Z),
    exists m,
      assign_topics_evenly ["A"; "B"; "C"; "D"] ["X"; "X"; "X"; "Y"] s = Ok m /\
      bucket_size m "X" = 3 /\ bucket_size m "Y" = 1.
Proof.
  split; [by_computation|]. intros G s.
  destruct (assign_topics_evenly_zip ["A"; "B"; "C"; "D"]
              ["X"; "X"; "X"; "Y"] s) as (l & Hl & ->);
    [by_computation|done|].
  apply Permutation_length in Hl.
  eexists. split; [done|].
  rewrite !bucket_size_zip by (by rewrite length_cycle).
  by vm_compute.
Qed.

(** C8 (amended): for every roster [R] of unique names and every list [T]
    of at least one topic, all different, the topic at index [j] of [T]
    receives [|R| / |T|] learners, and one more exactly when
    [j < |R| mod |T|]: the extra learners go to the first [|R| mod |T|]
    topics in index order. *)
Theorem assign_topics_evenly_remainder {G : RandomGen}
    (R T : list string) (s : Z) :
  NoDup R -> NoDup T -> 1 <= length T ->
  exists m,
    assign_topics_evenly R T s = Ok m /\
    forall j topic, T !! j = Some topic ->
      bucket_size m topic =
      length R / length T +
      (if decide (j < length R mod length T) then 1 else 0).
Proof.
  intros HR HT Hlen.
  assert (T <> []) as Hne by (destruct T; simpl in *; [lia|done]).
  destruct (assign_topics_evenly_bucket R T s HR HT Hne)
    as (m & Hm & _ & _ & Hsize).
  exists m. split; [done|]. intros j topic Hj.
  rewrite (Hsize j topic Hj).
  apply count_mod_formula; [lia|by eapply lookup_lt_Some].
Qed.

Lemma assign_topics_evenly_remainder_sample :
  exists m,
    @assign_topics_evenly lcg sample_roster sample_topics 1 = Ok m /\
    forall j topic, sample_topics !! j = Some topic ->
      bucket_size m topic =
      length sample_roster / length sample_topics +
      (if decide (j < length sample_roster mod length sample_topics)
       then 1 else 0).
Proof.
  apply (assign_topics_evenly_remainder (G := lcg) sample_roster sample_topics 1).
  - by_computation.
  - by_computation.
  - simpl. lia.
Defined.

(** C8 as stated fails: three learners and the topics X, Y leave a
    remainder of one, and the extra learner goes to X, the first topic,
    not to Y, the later one. *)
Lemma assign_topics_evenly_extra_goes_first :
  3 mod 2 = 1 /\
  forall (G : RandomGen) (s : Z),
    exists m,
      assign_topics_evenly ["A"; "B"; "C"] ["X"; "Y"] s = Ok m /\
      bucket_size m "X" = 2 /\ bucket_size m "Y" = 1.
Proof.
  split; [done|]. intros G s.
  destruct (assign_topics_evenly_zip ["A"; "B"; "C"] ["X"; "Y"] s)
    as (l & Hl & ->); [by_computation|done|].
  apply Permutation_length in Hl.
  eexists. split; [done|].
  rewrite !bucket_size_zip by (by rewrite length_cycle).
  by vm_compute.
Qed.

(** C6 (amended): with an empty topic list [assign_topics_evenly] signals
    no configuration error of its own.  For the empty roster it returns
    the empty assignment; for a non-empty roster the lookup [topics[0]]
    raises [IndexError] and no assignment is produced. *)
Theorem assign_topics_evenly_no_topics {G : RandomGen} (R : list string) (s : Z) :
  (R = [] -> assign_topics_evenly R [] s = Ok []) /\
  (R <> [] -> assign_topics_evenly R [] s = Raise IndexError).
Proof.
  unfold assign_topics_evenly.
  destruct (shuffle_Permutation (rng_seed s) R) as (l & -> & Hl). simpl.
  split.
  - intros ->. by apply Permutation_nil_r in Hl as ->.
  - intros HR. destruct l as [|x l]; [|done].
    by apply Permutation_nil_l in Hl.
Qed.

(** C6 as stated fails: with no topics, the empty roster yields the empty
    assignment without any error, and a roster of one learner ends in
    [IndexError]. *)
Lemma assign_topics_evenly_without_configuration_error :
  (forall (G : RandomGen) (s : Z), assign_topics_evenly [] [] s = Ok []) /\
  (forall (G : RandomGen) (s : Z),
     assign_topics_evenly ["A"] [] s = Raise IndexError).
Proof. split; intros G s; reflexivity. Qed.

(** ** Expert groups *)

(** C7: for every assignment (a dictionary, so with distinct learners as
    keys) the buckets of [invert_to_experts] belong to distinct topics and
    hold every learner once, in the bucket of the learner's topic; the
    memberships add up to the number of learners; every bucket is in
    alphabetical order and none is empty, so a topic without learners has
    no entry. *)
Theorem invert_to_experts_inverse (a : dict string) :
  NoDup (keys a) ->
  let e := invert_to_experts a in
  NoDup (keys e) /\
  NoDup (concat (values e)) /\
  (forall learner topic,
     (learner, topic) ∈ a <->
     exists members, (topic, members) ∈ e /\ learner ∈ members) /\
  length (concat (values e)) = length a /\
  Forall (fun bucket => alphabetical bucket.2 /\ bucket.2 <> []) e.
Proof.
  intros Ha e.
  destruct (invert_to_experts_pairs a) as (Hnd & Hperm & Hall). fold e in Hnd, Hperm, Hall.
  split; [done|]. split; [|split; [|split]].
  - rewrite <- pairs_of_fst, Hperm. apply Ha.
  - intros learner topic. by rewrite <- elem_of_pairs_of, Hperm.
  - by rewrite <- pairs_of_fst, length_fmap, Hperm.
  - eapply Forall_impl; [apply Hall|]. by intros b [? ?].
Qed.

Lemma invert_to_experts_inverse_sample :
  let a := assignment (sample_state 1 480 false) in
  let e := invert_to_experts a in
  NoDup (keys e) /\
  NoDup (concat (values e)) /\
  (forall learner topic,
     (learner, topic) ∈ a <->
     exists members, (topic, members) ∈ e /\ learner ∈ members) /\
  length (concat (values e)) = length a /\
  Forall (fun bucket => alphabetical bucket.2 /\ bucket.2 <> []) e.
Proof.
  apply (invert_to_experts_inverse (assignment (sample_state 1 480 false))).
  by_computation.
Defined.

(** ** Home groups *)

(** C2: for every mapping of expert groups as [invert_to_experts] builds
    them (distinct topics, every learner listed once), [build_stammgruppen]
    returns, without error, as many groups as the largest bucket has
    members (none for an empty mapping or empty buckets); the groups hold
    exactly the (learner, topic) pairs of the buckets, every learner once,
    and no group holds two learners of one topic. *)
Theorem build_stammgruppen_home_groups (e : dict (list string)) :
  NoDup (keys e) -> NoDup (concat (values e)) ->
  exists groups,
    build_stammgruppen e = Ok groups /\
    length groups = max_list (length <$> values e) /\
    concat groups ≡ₚ pairs_of e /\
    NoDup (concat groups).*1 /\
    Forall (fun g => NoDup g.*2) groups.
Proof.
  intros Hk Hv.
  destruct (build_stammgruppen_spec e Hk) as (groups & Hg & Hlen & Hperm & Hnd).
  exists groups. split; [done|]. split; [done|]. split; [done|].
  split; [|done]. by rewrite Hperm, pairs_of_fst.
Qed.

Lemma build_stammgruppen_home_groups_sample :
  exists groups,
    build_stammgruppen sample_experts = Ok groups /\
    length groups = max_list (length <$> values sample_experts) /\
    concat groups ≡ₚ pairs_of sample_experts /\
    NoDup (concat groups).*1 /\
    Forall (fun g => NoDup g.*2) groups.
Proof.
  apply (build_stammgruppen_home_groups sample_experts); by_computation.
Defined.

(** The home groups of an inverted assignment: the composition that the
    controller runs after every change. *)
Lemma build_stammgruppen_of_assignment (a : dict string) :
  NoDup (keys a) ->
  exists groups,
    build_stammgruppen (invert_to_experts a) = Ok groups /\
    (concat groups).*1 ≡ₚ keys a /\
    Forall (fun g => NoDup g.*2) groups.
Proof.
  intros Ha.
  destruct (invert_to_experts_pairs a) as (Hnd & Hperm & _).
  destruct (build_stammgruppen_spec _ Hnd) as (groups & Hg & _ & Hp & Hn).
  exists groups. split; [done|]. split; [|done].
  unfold keys. by rewrite Hp, Hperm.
Qed.

(** ** Simple groups *)

(** C9: for a non-empty roster and a requested group count above its
    size, [build_simple_groups] returns, without error, as many groups as
    there are learners, each of exactly one learner. *)
Theorem build_simple_groups_clamps {G : RandomGen} (R : list string) (gc : Z)
    (seed : option Z) (entropy : rng) :
  R <> [] -> (Z.of_nat (length R) < gc)%Z ->
  exists groups,
    build_simple_groups R gc seed entropy = Ok groups /\
    length groups = length R /\
    Forall (fun g => length g = 1) groups /\
    concat groups ≡ₚ R.
Proof.
  intros HR Hgc.
  assert (0 < length R) as Hpos by (destruct R; simpl; [done|lia]).
  destruct (build_simple_groups_spec R gc seed entropy)
    as (groups & Hg & Hlen & Hperm & Hsize); [lia|done|].
  assert (length groups = length R) as Hlen' by lia.
  exists groups. split; [done|]. split; [done|]. split; [|done].
  apply Forall_forall. intros g [k Hk]%list_elem_of_lookup.
  rewrite (Hsize k g Hk), Hlen'.
  rewrite count_mod_formula; [|done|apply lookup_lt_Some in Hk; lia].
  rewrite Nat.div_same, Nat.Div0.mod_same by lia. case_decide; lia.
Qed.

(** The scenario of the specification: three learners, five groups
    requested. *)
Lemma build_simple_groups_clamps_sample :
  exists groups,
    @build_simple_groups lcg ["A"; "B"; "C"] 5 None 7%Z = Ok groups /\
    length groups = 3 /\
    Forall (fun g => length g = 1) groups /\
    concat groups ≡ₚ ["A"; "B"; "C"].
Proof.
  apply (build_simple_groups_clamps (G := lcg) ["A"; "B"; "C"] 5 None 7%Z).
  - done.
  - simpl. lia.
Defined.

(** C10: for every roster of unique names, every group count and every
    seed, [build_simple_groups] returns without error; for a group count
    of at least 1 the groups hold every learner exactly once and their
    sizes differ by at most 1; for a group count below 1 or an empty
    roster the result is the empty list. *)
Theorem build_simple_groups_partition {G : RandomGen} (R : list string)
    (gc : Z) (seed : option Z) (entropy : rng) :
  NoDup R ->
  exists groups,
    build_simple_groups R gc seed entropy = Ok groups /\
    ((1 <= gc)%Z ->
       concat groups ≡ₚ R /\ NoDup (concat groups) /\
       forall g1 g2, g1 ∈ groups -> g2 ∈ groups ->
         length g1 <= length g2 + 1) /\
    ((gc <= 0)%Z \/ R = [] -> groups = []).
Proof.
  intros HR.
  destruct (decide ((gc <= 0)%Z \/ R = [])) as [Hempty|Hfull].
  - exists []. split; [by apply build_simple_groups_empty|].
    split; [|done]. intros Hgc. destruct Hempty as [? | ->]; [lia|].
    split; [done|]. split; [constructor|]. by intros g1 g2 ?%elem_of_nil.
  - destruct (build_simple_groups_spec R gc seed entropy)
      as (groups & Hg & Hlen & Hperm & Hsize);
      [lia|by intros ->; apply Hfull; right|].
    exists groups. split; [done|]. split; [|done].
    intros Hgc. split; [done|]. split; [by rewrite Hperm|].
    intros g1 g2 [k1 Hk1]%list_elem_of_lookup [k2 Hk2]%list_elem_of_lookup.
    rewrite (Hsize k1 g1 Hk1), (Hsize k2 g2 Hk2).
    apply count_mod_spread; [|by eapply lookup_lt_Some..].
    apply lookup_lt_Some in Hk1. lia.
Qed.

Lemma build_simple_groups_partition_sample :
  exists groups,
    @build_simple_groups lcg sample_roster 2 (Some 1%Z) 7%Z = Ok groups /\
    ((1 <= 2)%Z ->
       concat groups ≡ₚ sample_roster /\ NoDup (concat groups) /\
       forall g1 g2, g1 ∈ groups -> g2 ∈ groups ->
         length g1 <= length g2 + 1) /\
    ((2 <= 0)%Z \/ sample_roster = [] -> groups = []).
Proof.
  apply (build_simple_groups_partition (G := lcg) sample_roster 2 (Some 1%Z) 7%Z).
  by_computation.
Defined.

(** ** The countdown *)

(** C3 (amended): from a running timer with [seconds_left = k >= 1], [k]
    calls of [_tick] bring [seconds_left] to 0 and leave [running] true;
    the next call decrements nothing, sets [running] to false and rings
    the bell; after that [_tick] changes nothing. *)
Theorem tick_countdown (f : PhaseFrame) (k : Z) :
  running (state f) = true -> seconds_left (state f) = k -> (1 <= k)%Z ->
  let f_k := Nat.iter (Z.to_nat k) _tick f in
  let f_end := _tick f_k in
  seconds_left (state f_k) = 0%Z /\ running (state f_k) = true /\
  seconds_left (state f_end) = 0%Z /\ running (state f_end) = false /\
  signals f_end = signals f ++ [Bell] /\
  _tick f_end = f_end.
Proof.
  intros Hrun Hsec Hk f_k f_end.
  destruct (tick_iter (Z.to_nat k) f Hrun) as [Hst Hsig]; [lia|].
  fold f_k in Hst, Hsig.
  assert (seconds_left (state f_k) = 0%Z) as H0 by (rewrite Hst; simpl; lia).
  assert (running (state f_k) = true) as H1 by (by rewrite Hst).
  destruct (tick_elapsed f_k H1) as [Hst' Hsig']; [lia|].
  fold f_end in Hst', Hsig'.
  assert (running (state f_end) = false) as H2 by (by rewrite Hst').
  split; [done|]. split; [done|].
  split; [by rewrite Hst'|]. split; [done|].
  split; [by rewrite Hsig', Hsig|]. by apply tick_stopped.
Qed.

Lemma tick_countdown_sample :
  let f := sample_frame 1 3 true in
  let f_k := Nat.iter (Z.to_nat 3) _tick f in
  let f_end := _tick f_k in
  seconds_left (state f_k) = 0%Z /\ running (state f_k) = true /\
  seconds_left (state f_end) = 0%Z /\ running (state f_end) = false /\
  signals f_end = signals f ++ [Bell] /\
  _tick f_end = f_end.
Proof.
  apply (tick_countdown (sample_frame 1 3 true) 3).
  - reflexivity.
  - reflexivity.
  - lia.
Defined.

(** C3 as stated fails: from [seconds_left = 1] one call of [_tick]
    reaches 0 and the timer is still running; [running] becomes false
    only with the following call. *)
Lemma tick_countdown_still_running :
  let f := sample_frame 1 1 true in
  running (state f) = true /\ seconds_left (state f) = 1%Z /\
  seconds_left (state (Nat.iter 1 _tick f)) = 0%Z /\
  running (state (Nat.iter 1 _tick f)) = true /\
  running (state (Nat.iter 2 _tick f)) = false.
Proof. repeat split; reflexivity. Qed.

(** ** Manual reassignment *)



(** ** Phase changes *)

(** C5 (amended): in phase 3 [_next] leaves the phase, the seconds left,
    the roster, the topics, the assignment, the expert groups and the home
    groups as they are, sets [running] to false, drops the pending timer
    callback and signals the end of the session. *)
Theorem next_in_last_phase (f : PhaseFrame) :
  phase (state f) = 3%Z ->
  exists f',
    _next f = Ok f' /\
    state f' =
      with_timer (phase (state f)) (seconds_left (state f)) false (state f) /\
    phase (state f') = 3%Z /\
    seconds_left (state f') = seconds_left (state f) /\
    running (state f') = false /\
    assignment (state f') = assignment (state f) /\
    experts (state f') = experts (state f) /\
    stammgruppen (state f') = stammgruppen (state f) /\
    _timer_job f' = None /\
    signals f' =
      signals f ++ [ShowInfo "Abschluss" "Jigsaw-Durchlauf beendet."].
Proof.
  intros Hph. unfold _next.
  destruct (_timer_job f) as [job|] eqn:Hjob; simpl;
    rewrite Hph, decide_False by lia;
    (eexists; split; [done|]); simpl; rewrite ?Hjob; by repeat split.
Qed.

Lemma next_in_last_phase_sample :
  let f := sample_frame 3 0 false in
  exists f',
    _next f = Ok f' /\
    state f' =
      with_timer (phase (state f)) (seconds_left (state f)) false (state f) /\
    phase (state f') = 3%Z /\
    seconds_left (state f') = seconds_left (state f) /\
    running (state f') = false /\
    assignment (state f') = assignment (state f) /\
    experts (state f') = experts (state f) /\
    stammgruppen (state f') = stammgruppen (state f) /\
    _timer_job f' = None /\
    signals f' =
      signals f ++ [ShowInfo "Abschluss" "Jigsaw-Durchlauf beendet."].
Proof.
  apply (next_in_last_phase (sample_frame 3 0 false)). reflexivity.
Defined.

(** C5 as stated fails: in phase 3 with the timer running, [_next] stops
    the timer. *)
Lemma next_in_last_phase_stops_timer :
  let f := sample_frame 3 20 true in
  phase (state f) = 3%Z /\ running (state f) = true /\
  exists f', _next f = Ok f' /\ running (state f') = false.
Proof. split; [done|]. split; [done|]. by eexists. Qed.

(** * Further properties of the code *)

(** ** Expert groups, by lookup *)

Lemma learners_of_cons (student topic' : string) (a : dict string)
    (topic : string) :
  learners_of ((student, topic') :: a) topic =
  if decide (topic' = topic) then student :: learners_of a topic
  else learners_of a topic.
Proof.
  unfold learners_of.
  rewrite (filter_cons (fun p : string * string => p.2 = topic)).
  cbn [snd]. by case_decide.
Qed.

Lemma get_add_expert (e : dict (list string)) (student topic' topic : string) :
  get topic (add_expert e (student, topic')) =
  if decide (topic' = topic) then Some (default [] (get topic e) ++ [student])
  else get topic e.
Proof.
  induction e as [|[k v] e IH].
  - rewrite add_expert_nil. simpl. by case_decide.
  - rewrite add_expert_cons.
    destruct (decide (k = topic')) as [->|Hk]; cbn [get].
    + destruct (decide (topic' = topic)); done.
    + rewrite IH. destruct (decide (k = topic)) as [->|Hk'].
      * by rewrite decide_False by done.
      * done.
Qed.

Lemma get_collect_experts (a : dict string) (e : dict (list string))
    (topic : string) :
  get topic (foldl add_expert e a) =
  if decide (learners_of a topic = []) then get topic e
  else Some (default [] (get topic e) ++ learners_of a topic).
Proof.
  revert e. induction a as [|[student topic'] a IH]; intros e; [done|].
  cbn [foldl]. rewrite IH, get_add_expert, learners_of_cons.
  destruct (decide (topic' = topic)) as [->|Hne]; [|done].
  rewrite (decide_False (P := _ :: _ = [])) by done. simpl.
  case_decide as Hl.
  - by rewrite Hl.
  - by rewrite <- (assoc_L (++)).
Qed.

Lemma get_sorted (e : dict (list string)) (topic : string) :
  get topic ((fun '(k, members) => (k, sort members)) <$> e) =
  sort <$> get topic e.
Proof.
  induction e as [|[k v] e IH]; [done|].
  rewrite fmap_cons. simpl. by case_decide.
Qed.

Lemma get_invert_to_experts (a : dict string) (topic : string) :
  get topic (invert_to_experts a) =
  if decide (learners_of a topic = []) then None
  else Some (sort (learners_of a topic)).
Proof.
  unfold invert_to_experts. rewrite get_sorted, get_collect_experts.
  by case_decide.
Qed.

(** X1: the bucket of a topic, looked up in the mapping that
    [invert_to_experts] returns, is the alphabetically sorted list of the
    learners the assignment gives that topic; a topic that no learner has
    is a missing key. *)
Theorem invert_to_experts_lookup (a : dict string) (topic : string) :
  get topic (invert_to_experts a) =
  if decide (learners_of a topic = []) then None
  else Some (sort (learners_of a topic)).
Proof.
  destruct (decide (learners_of a topic = [])) as [Hnone|Hsome].
  - rewrite get_invert_to_experts. by rewrite decide_True.
  - rewrite get_invert_to_experts. by rewrite decide_False.
Qed.

Lemma dedup_loop_keys (a : dict string) (e : dict (list string)) :
  keys (foldl add_expert e a) =
  dedup_loop (values a) (list_to_set (keys e)) (keys e).
Proof.
  revert e. induction a as [|[student topic] a IH]; intros e; [done|].
  cbn [foldl]. rewrite IH, keys_add_expert.
  change (values ((student, topic) :: a)) with (topic :: values a).
  cbn [dedup_loop].
  destruct (decide (topic ∈ keys e)) as [Hin|Hin].
  - rewrite decide_True; [done|]. by apply elem_of_list_to_set.
  - rewrite decide_False by (by rewrite elem_of_list_to_set).
    f_equal. rewrite list_to_set_app_L. simpl.
    rewrite (right_id_L ∅ (∪)). apply (comm_L (∪)).
Qed.

(** X2: the topics of the mapping returned by [invert_to_experts] stand
    in the order in which the assignment first mentions them: the order
    that the loop of [clean_lines] gives the list of assigned topics. *)
Theorem invert_to_experts_keys (a : dict string) :
  keys (invert_to_experts a) = dedup_loop (values a) ∅ [].
Proof.
  unfold invert_to_experts. simpl. by rewrite keys_sorted, dedup_loop_keys.
Qed.

(** ** Simple groups: number and sizes *)

(** X3: for a non-empty roster and a group count of at least 1,
    [build_simple_groups] returns [min(group_count, len(students))]
    groups, none of them empty; group [k] has [len(students) / count]
    learners, and one more when [k < len(students) mod count]. *)
Theorem build_simple_groups_sizes {G : RandomGen} (R : list string) (gc : Z)
    (seed : option Z) (entropy : rng) :
  R <> [] -> (1 <= gc)%Z ->
  exists groups,
    build_simple_groups R gc seed entropy = Ok groups /\
    length groups = Z.to_nat (Z.min gc (Z.of_nat (length R))) /\
    Forall (fun g => g <> []) groups /\
    forall k g, groups !! k = Some g ->
      length g =
      length R / length groups +
      (if decide (k < length R mod length groups) then 1 else 0).
Proof.
  intros HR Hgc.
  destruct (build_simple_groups_spec R gc seed entropy)
    as (groups & Hg & Hlen & _ & Hsize); [lia|done|].
  assert (0 < length R) as Hpos by (destruct R; simpl; [done|lia]).
  assert (0 < length groups <= length R) as Hc by lia.
  assert (forall k g, groups !! k = Some g ->
    length g = length R / length groups +
      (if decide (k < length R mod length groups) then 1 else 0)) as Hform.
  { intros k g Hk. rewrite (Hsize k g Hk).
    apply count_mod_formula; [lia|by eapply lookup_lt_Some]. }
  exists groups. split; [done|]. split; [done|]. split; [|done].
  apply Forall_forall. intros g [k Hk]%list_elem_of_lookup Hnil.
  specialize (Hform k g Hk). rewrite Hnil in Hform. simpl in Hform.
  pose proof (Nat.div_str_pos (length R) (length groups) Hc). lia.
Qed.

Lemma build_simple_groups_sizes_sample :
  exists groups,
    @build_simple_groups lcg sample_roster 2 (Some 1%Z) 7%Z = Ok groups /\
    length groups = Z.to_nat (Z.min 2 (Z.of_nat (length sample_roster))) /\
    Forall (fun g => g <> []) groups /\
    forall k g, groups !! k = Some g ->
      length g =
      length sample_roster / length groups +
      (if decide (k < length sample_roster mod length groups) then 1 else 0).
Proof.
  apply (build_simple_groups_sizes (G := lcg) sample_roster 2 (Some 1%Z) 7%Z).
  - done.
  - lia.
Defined.

(** ** Home groups, by rank *)

Lemma picks_rank {A} (c i : nat) (xs : list A) (k : nat) :
  i + length xs <= c -> k < c ->
  picks c i xs k = option_list (if decide (i <= k) then xs !! (k - i) else None).
Proof.
  revert i. induction xs as [|x xs IH]; intros i Hlen Hk; cbn [picks].
  - case_decide; [|done]. by rewrite lookup_nil.
  - simpl in Hlen. rewrite Nat.mod_small by lia. rewrite IH by lia.
    destruct (decide (i = k)) as [->|Hne].
    + rewrite decide_False, decide_True by lia. by rewrite Nat.sub_diag.
    + destruct (decide (i <= k)) as [Hle|Hgt].
      * rewrite decide_True by lia.
        replace (k - i) with (S (k - S i)) by lia. done.
      * by rewrite decide_False by lia.
Qed.

Lemma place_topics_rank (e : dict (list string)) (n : nat)
    (topics : list string) (groups : list (list (string * string))) :
  0 < n -> length groups = n ->
  (forall topic, topic ∈ topics -> length (default [] (get topic e)) <= n) ->
  place_topics e n topics groups =
  Ok (imap (fun k grp =>
        grp ++ (topics ≫= fun topic =>
          option_list ((fun student => (student, topic)) <$>
                       default [] (get topic e) !! k))) groups).
Proof.
  intros Hn. revert groups.
  induction topics as [|topic rest IH]; intros groups Hlen Hbound;
    cbn [place_topics].
  - f_equal. apply list_eq; intros k. rewrite list_lookup_imap.
    destruct (groups !! k); simpl; [|done]. by rewrite app_nil_r.
  - rewrite (round_robin_picks n 0 _ groups Hn Hlen). cbn [bind].
    rewrite IH.
    + f_equal. apply list_eq; intros k. rewrite !list_lookup_imap.
      destruct (groups !! k) as [g|] eqn:Hg; simpl; [|done].
      apply lookup_lt_Some in Hg.
      rewrite picks_rank; [|rewrite length_fmap; apply Hbound; left|lia].
      rewrite decide_True by lia. rewrite Nat.sub_0_r, list_lookup_fmap.
      by rewrite <- (assoc_L (++)).
    + by rewrite length_imap.
    + intros t Ht. apply Hbound. by right.
Qed.

Lemma home_group_cons (t : string) (v : list string) (e : dict (list string))
    (k : nat) :
  home_group ((t, v) :: e) k =
  option_list ((fun student => (student, t)) <$> v !! k) ++ home_group e k.
Proof. done. Qed.

Lemma home_group_keys (e : dict (list string)) (k : nat) :
  NoDup (keys e) ->
  keys e ≫= (fun topic =>
    option_list ((fun student => (student, topic)) <$>
                 default [] (get topic e) !! k)) =
  home_group e k.
Proof.
  induction e as [|[t v] e IH]; [done|].
  rewrite keys_cons, NoDup_cons. intros [Hk Hnd].
  rewrite bind_cons, home_group_cons. cbn [get].
  rewrite decide_True by done. cbn [default]. f_equal. rewrite <- (IH Hnd).
  apply bind_ext_elem_of. intros topic Hin.
  rewrite decide_False; [done|]. by intros ->.
Qed.

Lemma build_stammgruppen_seq (e : dict (list string)) :
  NoDup (keys e) ->
  build_stammgruppen e =
  Ok (home_group e <$> seq 0 (max_list (length <$> values e))).
Proof.
  intros Hnd. unfold build_stammgruppen.
  destruct (keys e) as [|k0 ks] eqn:Hks.
  { apply fmap_nil_inv in Hks as ->. done. }
  rewrite <- Hks in *. clear k0 ks Hks.
  set (n := max_list (length <$> values e)).
  case_decide as Hn; [by rewrite Hn|].
  rewrite place_topics_rank; [|lia|by rewrite length_replicate|].
  - f_equal. apply list_eq; intros k.
    rewrite list_lookup_imap, list_lookup_fmap.
    destruct (decide (k < n)) as [Hk|Hk].
    + rewrite lookup_replicate_2, lookup_seq_lt by done. simpl.
      by rewrite home_group_keys.
    + rewrite (proj1 (lookup_replicate_None _ _ _)) by lia.
      by rewrite lookup_seq_ge by lia.
  - intros topic _. destruct (get topic e) as [ms|] eqn:Hget; simpl; [|lia].
    apply max_list_elem_of_le, list_elem_of_fmap. exists ms. split; [done|].
    apply get_Some_elem_of in Hget. unfold values.
    apply list_elem_of_fmap. by exists (topic, ms).
Qed.

(** X4: for every mapping with distinct topics [build_stammgruppen]
    returns the groups of rank 0, 1, ..., n-1, where n is the size of the
    largest bucket and the group of rank [k] pairs the [k]-th member of
    every bucket that has more than [k] members with its topic, in the
    order of the topics. *)
Theorem build_stammgruppen_by_rank (e : dict (list string)) :
  NoDup (keys e) ->
  build_stammgruppen e =
  Ok (home_group e <$> seq 0 (max_list (length <$> values e))).
Proof. intros Hnd. by apply build_stammgruppen_seq. Qed.

Lemma build_stammgruppen_by_rank_sample :
  build_stammgruppen sample_experts =
  Ok (home_group sample_experts <$>
        seq 0 (max_list (length <$> values sample_experts))).
Proof.
  apply (build_stammgruppen_by_rank sample_experts). by_computation.
Defined.





(** ** From the roster to the home groups *)




Section Session.

Context {G : RandomGen}.


End Session.



(** ** clean_lines *)

Lemma dedup_loop_spec (raw : list string) (seen : gset string)
    (out : list string) :
  seen = list_to_set out -> NoDup out ->
  NoDup (dedup_loop raw seen out) /\
  (forall x, x ∈ dedup_loop raw seen out <-> x ∈ out \/ x ∈ raw) /\
  exists rest, dedup_loop raw seen out = out ++ rest /\ rest `sublist_of` raw.
Proof.
  revert seen out. induction raw as [|x raw IH]; intros seen out Hseen Hnd;
    cbn [dedup_loop].
  - split; [done|]. split.
    + intros y. rewrite elem_of_nil. tauto.
    + exists []. by rewrite app_nil_r.
  - destruct (decide (x ∈ seen)) as [Hin|Hin].
    + destruct (IH seen out Hseen Hnd) as (H1 & H2 & rest & H3 & H4).
      split; [done|]. split.
      * intros y. rewrite H2, elem_of_cons.
        assert (x ∈ out) by (by rewrite Hseen, elem_of_list_to_set in Hin).
        split; [tauto|]. intros [?|[->|?]]; tauto.
      * exists rest. split; [done|]. by apply sublist_cons.
    + destruct (IH ({[x]} ∪ seen) (out ++ [x])) as (H1 & H2 & rest & H3 & H4).
      * rewrite Hseen, list_to_set_app_L. simpl.
        rewrite (right_id_L ∅ (∪)). apply (comm_L (∪)).
      * apply NoDup_app. split; [done|]. split; [|apply NoDup_singleton].
        intros y Hy ->%list_elem_of_singleton.
        apply Hin. by rewrite Hseen, elem_of_list_to_set.
      * split; [done|]. split.
        -- intros y. rewrite H2, elem_of_app, list_elem_of_singleton, elem_of_cons.
           tauto.
        -- exists (x :: rest). split; [by rewrite H3, <- (assoc_L (++))|].
           by apply sublist_skip.
Qed.

Lemma split_commas_nonempty (line : string) : split_commas line <> [].
Proof.
  induction line as [|c line IH]; cbn [split_commas]; [done|].
  case_decide; [done|]. by destruct (split_commas line).
Qed.

(** The model of [split] is an inverse of joining with commas. *)
Lemma split_commas_join (line : string) :
  String.concat "," (split_commas line) = line.
Proof.
  induction line as [|c line IH]; [done|]. cbn [split_commas].
  pose proof (split_commas_nonempty line) as Hne.
  destruct (split_commas line) as [|part parts]; [done|].
  subst line. case_decide as Hc.
  - subst c. reflexivity.
  - by destruct parts.
Qed.

(** X7: [clean_lines] returns no name twice and no empty name; its
    entries are exactly the non-empty stripped parts that the lines of the
    text have between commas and semicolons, and the empty text gives the
    empty list. *)
Theorem clean_lines_entries {S : PyStr} (block : string) :
  NoDup (clean_lines block) /\
  ("" ∉ clean_lines block) /\
  (block = "" -> clean_lines block = []) /\
  forall x,
    x ∈ clean_lines block <->
    block <> "" /\ x <> "" /\
    exists line part,
      line ∈ splitlines block /\
      part ∈ split_commas (replace_semicolons line) /\
      x = strip part.
Proof.
  unfold clean_lines.
  destruct (decide (block = "")) as [Hb|Hb].
  { split; [constructor|]. split; [apply not_elem_of_nil|]. split; [done|].
    intros x. rewrite elem_of_nil. tauto. }
  set (raw := splitlines block ≫= _).
  destruct (dedup_loop_spec raw ∅ []) as (Hnd & Hin & _); [done|constructor|].
  assert (forall x, x ∈ raw <-> x <> "" /\ exists line part,
    line ∈ splitlines block /\
    part ∈ split_commas (replace_semicolons line) /\ x = strip part) as Hraw.
  { intros x. unfold raw. rewrite list_elem_of_bind. split.
    - intros (line & Hx & Hline).
      apply list_elem_of_filter in Hx as [Hne Hx].
      apply list_elem_of_fmap in Hx as (part & -> & Hpart). eauto 6.
    - intros (Hne & line & part & Hline & Hpart & ->).
      exists line. split; [|done]. apply list_elem_of_filter. split; [done|].
      apply list_elem_of_fmap. eauto. }
  split; [done|]. split; [|split; [done|]].
  - rewrite Hin, elem_of_nil, Hraw. tauto.
  - intros x. rewrite Hin, elem_of_nil, Hraw. tauto.
Qed.

(** ** Reading and writing dictionaries *)

Lemma get_set_eq {V} (k : string) (v : V) (d : dict V) :
  get k (set k v d) = Some v.
Proof.
  induction d as [|[k' v'] d IH]; simpl.
  - by rewrite decide_True.
  - case_decide; simpl; [by rewrite decide_True|by rewrite decide_False].
Qed.

Lemma get_set_ne {V} (k k' : string) (v : V) (d : dict V) :
  k <> k' -> get k' (set k v d) = get k' d.
Proof.
  intros Hne. induction d as [|[k0 v0] d IH]; simpl.
  - by rewrite decide_False.
  - destruct (decide (k0 = k)) as [->|Hk0]; simpl.
    + by rewrite !decide_False.
    + by rewrite IH.
Qed.

Lemma keys_set_elem_of {V} (k : string) (v : V) (d : dict V) :
  k ∈ keys d -> keys (set k v d) = keys d.
Proof.
  induction d as [|[k' v'] d IH]; [by intros ?%elem_of_nil|].
  rewrite keys_cons. intros Hin. cbn [set].
  destruct (decide (k' = k)) as [->|Hne]; [done|].
  rewrite !keys_cons, IH; [done|].
  apply elem_of_cons in Hin as [->|Hin]; done.
Qed.

Lemma elem_of_set {V} (k k' : string) (v v' : V) (d : dict V) :
  (k', v') ∈ set k v d -> (k' = k /\ v' = v) \/ (k', v') ∈ d.
Proof.
  induction d as [|[k0 v0] d IH]; simpl.
  - intros [= -> ->]%list_elem_of_singleton. by left.
  - case_decide.
    + intros [[= -> ->]|Hin]%elem_of_cons; [by left|]. right. by right.
    + intros [[= -> ->]|Hin]%elem_of_cons; [right; left|].
      destruct (IH Hin) as [?|?]; [by left|]. right. by right.
Qed.

Lemma get_None_not_elem_of {V} (k : string) (d : dict V) :
  get k d = None <-> k ∉ keys d.
Proof.
  induction d as [|[k' v'] d IH].
  - split; [intros _; apply not_elem_of_nil|done].
  - rewrite keys_cons, not_elem_of_cons. cbn [get].
    destruct (decide (k' = k)) as [->|Hne].
    + split; [done|]. by intros [? _].
    + rewrite IH. split; [by intros ?; split; [intros ->|]|by intros [_ ?]].
Qed.

Lemma pop_set_fresh {V} (k : string) (v : V) (d : dict V) :
  get k d = None -> pop k (set k v d) = d.
Proof.
  induction d as [|[k' v'] d IH]; simpl.
  - intros _. by rewrite decide_True.
  - case_decide; [done|]. intros Hget. simpl.
    rewrite decide_False by done. by rewrite IH.
Qed.

Lemma set_set_previous {V} (k : string) (v previous : V) (d : dict V) :
  get k d = Some previous -> set k previous (set k v d) = d.
Proof.
  induction d as [|[k' v'] d IH]; simpl; [done|].
  case_decide as Hk.
  - intros [= ->]. simpl. rewrite decide_True by done. by subst.
  - intros Hget. simpl. rewrite decide_False by done. by rewrite IH.
Qed.

(** ** Starting a session *)

Section Setup.

Context {S : PyStr} {G : RandomGen}.

Lemma assign_topics_evenly_roster (R T : list string) (s : Z) :
  NoDup R -> T <> [] ->
  exists a,
    assign_topics_evenly R T s = Ok a /\
    keys a ≡ₚ R /\
    forall learner topic, (learner, topic) ∈ a -> topic ∈ T.
Proof.
  intros HR HT.
  destruct (assign_topics_evenly_zip R T s HR HT) as (l & Hl & ->).
  pose proof (Permutation_length Hl) as Hlen.
  eexists. split; [done|]. split.
  - unfold keys. rewrite fst_zip; [done|]. rewrite length_cycle. lia.
  - intros learner topic Hin. apply (cycle_elem_of T 0 (length R)); [done|].
    apply (elem_of_zip_r _ _ _ _ Hin).
Qed.

Lemma clean_lines_NoDup (block : string) : NoDup (clean_lines block).
Proof.
  unfold clean_lines. case_decide; [constructor|].
  by apply dedup_loop_spec; [|constructor].
Qed.

Lemma roster_assigned_groups (R T : list string) (s : Z) :
  NoDup R -> T <> [] ->
  exists a g,
    assign_topics_evenly R T s = Ok a /\
    build_stammgruppen (invert_to_experts a) = Ok g /\
    keys a ≡ₚ R /\
    forall learner topic, (learner, topic) ∈ a -> topic ∈ T.
Proof.
  intros HR HT.
  destruct (assign_topics_evenly_roster R T s HR HT) as (a & Ha & Hk & Hv).
  destruct (build_stammgruppen_invert a) as (g & Hg).
  by exists a, g.
Qed.

(** X8: [_start] refuses to start a session when the cleaned list of names
    has fewer than two entries or fewer than two topic fields are filled:
    it shows an error, leaves the shared state untouched and does not open
    the phase frame. *)
Theorem start_refuses (f : SetupFrame) :
  length (clean_lines (txt_names f)) < 2 \/ length (entered_topics f) < 2 ->
  exists message,
    _start f = Ok (notify ErrorBox "Fehler" message f) /\
    setup_state (notify ErrorBox "Fehler" message f) = setup_state f /\
    started (notify ErrorBox "Fehler" message f) = started f.
Proof.
  intros Hfew. unfold _start.
  destruct (decide (length (clean_lines (txt_names f)) < 2)) as [Hn|Hn].
  - by eexists.
  - rewrite decide_True by (by destruct Hfew). by eexists.
Qed.

(** X9: with at least two names and two topics [_start] never fails; it
    stores the cleaned names (no name twice) and the entered topics, deals
    the topics with [assign_topics_evenly] under the seed of the form so
    that every learner, and nobody else, has one of the topics, derives
    the expert and home groups from that assignment, and opens phase 1
    paused with [dur_read * 60] seconds on the clock. *)
Theorem start_builds_session (f : SetupFrame) :
  2 <= length (clean_lines (txt_names f)) ->
  2 <= length (entered_topics f) ->
  exists f',
    _start f = Ok f' /\
    started f' = true /\
    students (setup_state f') = clean_lines (txt_names f) /\
    topics (setup_state f') = entered_topics f /\
    seed (setup_state f') = var_seed f /\
    assign_topics_evenly (students (setup_state f'))
      (topics (setup_state f')) (var_seed f) =
      Ok (assignment (setup_state f')) /\
    roster_assigned (setup_state f') /\
    groups_current (setup_state f') /\
    phase (setup_state f') = 1%Z /\
    running (setup_state f') = false /\
    seconds_left (setup_state f') = (var_read f * 60)%Z.
Proof.
  intros Hn Ht. unfold _start.
  rewrite !decide_False by lia.
  destruct (roster_assigned_groups (clean_lines (txt_names f))
              (entered_topics f) (var_seed f))
    as (a & g & Ha & Hg & Hk & Hv).
  { apply clean_lines_NoDup. }
  { intros He. rewrite He in Ht. simpl in Ht. lia. }
  rewrite Ha. cbn [bind]. rewrite Hg. cbn [bind].
  eexists. split; [done|]. simpl.
  repeat split; try done. apply clean_lines_NoDup.
Qed.

End Setup.

Lemma start_refuses_sample :
  exists message,
    @_start plain_str lcg (sample_setup "Ada" ["X"; "Y"]) =
      Ok (notify ErrorBox "Fehler" message (sample_setup "Ada" ["X"; "Y"])) /\
    setup_state (notify ErrorBox "Fehler" message (sample_setup "Ada" ["X"; "Y"]))
      = setup_state (sample_setup "Ada" ["X"; "Y"]) /\
    started (notify ErrorBox "Fehler" message (sample_setup "Ada" ["X"; "Y"]))
      = started (sample_setup "Ada" ["X"; "Y"]).
Proof.
  apply (start_refuses (S := plain_str) (G := lcg)
           (sample_setup "Ada" ["X"; "Y"])).
  left. vm_compute. lia.
Defined.

Lemma start_builds_session_sample :
  let f := sample_setup "Ada, Bob; Cy, Ada" ["X"; " "; "Y "] in
  exists f',
    @_start plain_str lcg f = Ok f' /\
    started f' = true /\
    students (setup_state f') = @clean_lines plain_str (txt_names f) /\
    topics (setup_state f') = @entered_topics plain_str f /\
    seed (setup_state f') = var_seed f /\
    @assign_topics_evenly lcg (students (setup_state f'))
      (topics (setup_state f')) (var_seed f) =
      Ok (assignment (setup_state f')) /\
    roster_assigned (setup_state f') /\
    groups_current (setup_state f') /\
    phase (setup_state f') = 1%Z /\
    running (setup_state f') = false /\
    seconds_left (setup_state f') = (var_read f * 60)%Z.
Proof.
  apply (start_builds_session (S := plain_str) (G := lcg)
           (sample_setup "Ada, Bob; Cy, Ada" ["X"; " "; "Y "])).
  - vm_compute. lia.
  - vm_compute. lia.
Defined.

(** ** Phase changes and the derived groups *)

Lemma groups_current_rebuilt (a : dict string) :
  exists g,
    build_stammgruppen (invert_to_experts a) = Ok g /\
    forall sd st,
      groups_current (with_groups sd a (invert_to_experts a) g st).
Proof.
  destruct (build_stammgruppen_invert a) as (g & Hg).
  exists g. split; [done|]. by intros sd st.
Qed.

Lemma next_before_last_phase (f : PhaseFrame) :
  (0 <= phase (state f) < 3)%Z ->
  exists f',
    _next f = Ok f' /\
    phase (state f') = (phase (state f) + 1)%Z /\
    running (state f') = false /\
    _timer_job f' = None /\
    (phase (state f) = 1%Z ->
       seconds_left (state f') = (dur_expert (state f) * 60)%Z) /\
    (phase (state f) = 2%Z ->
       seconds_left (state f') = (dur_stamm (state f) * 60)%Z) /\
    students (state f') = students (state f) /\
    topics (state f') = topics (state f) /\
    assignment (state f') = assignment (state f) /\
    groups_current (state f').
Proof.
  intros Hph. unfold _next.
  set (f0 := match _timer_job f with Some _ => cancel_timer f | None => f end).
  assert (state f0 = state f) as Hst by (unfold f0; by destruct (_timer_job f)).
  assert (_timer_job f0 = None) as Hjob
    by (unfold f0; by destruct (_timer_job f) eqn:E).
  rewrite Hst, decide_True by lia. cbn [with_timer assignment].
  destruct (build_stammgruppen_invert (assignment (state f))) as (g & Hg).
  rewrite Hg. cbn [bind].
  match goal with
  | |- context [_render ?x] =>
      destruct (render_Ok x) as (f' & Hr & Hst' & _ & Hjob' & _)
  end; [simpl; lia|].
  exists f'. split; [done|]. rewrite Hst', Hjob'. simpl.
  split; [done|]. split; [done|]. split; [done|].
  split; [by intros ->|]. split; [by intros ->|].
  by repeat split.
Qed.

(** Below phase 0 the phase that [_next] moves to has no title: [_render]
    raises [KeyError]. *)
Lemma next_below_first_phase (f : PhaseFrame) :
  (phase (state f) < 0)%Z -> _next f = Raise KeyError.
Proof.
  intros Hph. unfold _next.
  set (f0 := match _timer_job f with Some _ => cancel_timer f | None => f end).
  assert (state f0 = state f) as Hst by (unfold f0; by destruct (_timer_job f)).
  rewrite Hst, decide_True by lia. cbn [with_timer assignment].
  destruct (build_stammgruppen_invert (assignment (state f))) as (g & Hg).
  rewrite Hg. cbn [bind]. apply render_KeyError. simpl. lia.
Qed.

(** X10: in phase 1 or 2 (and in a phase 0, if there were one) [_next]
    never fails: it moves to the next phase, stops the timer, drops the
    pending callback, loads the duration of the new phase (expert phase
    after phase 1, home-group phase after phase 2) in seconds, keeps
    roster, topics and assignment, and rebuilds the expert and home groups
    from the assignment, whatever they were before. *)
Theorem next_advances (f : PhaseFrame) :
  (0 <= phase (state f) < 3)%Z ->
  exists f',
    _next f = Ok f' /\
    phase (state f') = (phase (state f) + 1)%Z /\
    running (state f') = false /\
    _timer_job f' = None /\
    (phase (state f) = 1%Z ->
       seconds_left (state f') = (dur_expert (state f) * 60)%Z) /\
    (phase (state f) = 2%Z ->
       seconds_left (state f') = (dur_stamm (state f) * 60)%Z) /\
    students (state f') = students (state f) /\
    topics (state f') = topics (state f) /\
    assignment (state f') = assignment (state f) /\
    groups_current (state f').
Proof. apply next_before_last_phase. Qed.

Lemma next_advances_sample :
  let f := sample_frame 1 17 true in
  exists f',
    _next f = Ok f' /\
    phase (state f') = (phase (state f) + 1)%Z /\
    running (state f') = false /\
    _timer_job f' = None /\
    (phase (state f) = 1%Z ->
       seconds_left (state f') = (dur_expert (state f) * 60)%Z) /\
    (phase (state f) = 2%Z ->
       seconds_left (state f') = (dur_stamm (state f) * 60)%Z) /\
    students (state f') = students (state f) /\
    topics (state f') = topics (state f) /\
    assignment (state f') = assignment (state f) /\
    groups_current (state f').
Proof. apply (next_advances (sample_frame 1 17 true)). simpl. lia. Defined.

(** ** The countdown leaves the session alone *)

Lemma same_session_refl (st : AppState) : same_session st st.
Proof. by repeat split. Qed.

Lemma same_session_trans (st1 st2 st3 : AppState) :
  same_session st1 st2 -> same_session st2 st3 -> same_session st1 st3.
Proof.
  unfold same_session. intros H12 H23.
  destruct H12 as (?&?&?&?&?&?&?&?&?&?&?&?).
  destruct H23 as (?&?&?&?&?&?&?&?&?&?&?&?).
  repeat split; congruence.
Qed.

Lemma tick_same_session (f : PhaseFrame) :
  same_session (state f) (state (_tick f)).
Proof.
  unfold _tick. destruct (running (state f)); [|apply same_session_refl].
  case_decide; by repeat split.
Qed.

Lemma toggle_same_session (f : PhaseFrame) :
  same_session (state f) (state (_toggle f)).
Proof.
  unfold _toggle. cbn [state with_state running with_timer].
  destruct (negb (running (state f))).
  - eapply same_session_trans; [|apply tick_same_session]. by repeat split.
  - by repeat split.
Qed.

Lemma plus_minute_same_session (f : PhaseFrame) :
  same_session (state f) (state (_plus_minute f)).
Proof. by repeat split. Qed.

(** X11: the timer callbacks change nothing but the countdown: however
    often [_tick] runs, and after [_toggle] and [_plus_minute], the phase,
    the roster, the topics, the durations, the seed, the assignment and
    all groups are as before; in particular a countdown that reaches zero
    does not move to the next phase. *)
Theorem timer_keeps_session (f : PhaseFrame) (n : nat) :
  same_session (state f) (state (Nat.iter n _tick f)) /\
  same_session (state f) (state (_toggle f)) /\
  same_session (state f) (state (_plus_minute f)).
Proof.
  split; [|split; [apply toggle_same_session|apply plus_minute_same_session]].
  induction n as [|n IH]; [apply same_session_refl|].
  rewrite Nat.iter_succ.
  eapply same_session_trans; [apply IH|apply tick_same_session].
Qed.

(** X12: pressing the start button on a paused timer runs the first tick
    at once: with time left the timer runs, one second is already gone and
    a callback is scheduled; with no time left the bell rings and the
    timer stays stopped.  Pressing it on a running timer only clears
    [running]; the seconds left and the scheduled callback stay. *)
Theorem toggle_cases (f : PhaseFrame) :
  (running (state f) = false -> (0 < seconds_left (state f))%Z ->
     running (state (_toggle f)) = true /\
     seconds_left (state (_toggle f)) = (seconds_left (state f) - 1)%Z /\
     _timer_job (_toggle f) = Some (jobs f) /\
     signals (_toggle f) = signals f) /\
  (running (state f) = false -> (seconds_left (state f) <= 0)%Z ->
     running (state (_toggle f)) = false /\
     seconds_left (state (_toggle f)) = seconds_left (state f) /\
     _timer_job (_toggle f) = _timer_job f /\
     signals (_toggle f) = signals f ++ [Bell]) /\
  (running (state f) = true ->
     running (state (_toggle f)) = false /\
     seconds_left (state (_toggle f)) = seconds_left (state f) /\
     _timer_job (_toggle f) = _timer_job f /\
     signals (_toggle f) = signals f).
Proof.
  unfold _toggle, _tick. cbn [state with_state running with_timer seconds_left].
  split; [|split]; intros Hrun.
  - intros Hsec. rewrite Hrun. cbn [negb]. by rewrite decide_True.
  - intros Hsec. rewrite Hrun. cbn [negb]. by rewrite decide_False by lia.
  - by rewrite Hrun.
Qed.

Lemma toggle_cases_sample :
  let paused := sample_frame 1 480 false in
  let spent := sample_frame 1 0 false in
  let ticking := after_tick (sample_frame 1 480 true) in
  (running (state (_toggle paused)) = true /\
   seconds_left (state (_toggle paused)) = (seconds_left (state paused) - 1)%Z /\
   _timer_job (_toggle paused) = Some (jobs paused) /\
   signals (_toggle paused) = signals paused) /\
  (running (state (_toggle spent)) = false /\
   seconds_left (state (_toggle spent)) = seconds_left (state spent) /\
   _timer_job (_toggle spent) = _timer_job spent /\
   signals (_toggle spent) = signals spent ++ [Bell]) /\
  (running (state (_toggle ticking)) = false /\
   seconds_left (state (_toggle ticking)) = seconds_left (state ticking) /\
   _timer_job (_toggle ticking) = _timer_job ticking /\
   signals (_toggle ticking) = signals ticking).
Proof.
  intros paused spent ticking.
  destruct (toggle_cases paused) as (Hstart & _ & _).
  destruct (toggle_cases spent) as (_ & Hbell & _).
  destruct (toggle_cases ticking) as (_ & _ & Hpause).
  split; [apply Hstart; reflexivity|].
  split; [apply Hbell; [reflexivity|simpl; lia]|].
  apply Hpause. reflexivity.
Defined.

(** ** Changing the assignment by hand *)

Lemma apply_change_state (f : PhaseFrame) :
  (1 <= phase (state f) <= 3)%Z ->
  cmb_student f <> "" -> cmb_topic f <> "" ->
  exists g f',
    _apply_change f = Ok f' /\
    build_stammgruppen
      (invert_to_experts (set (cmb_student f) (cmb_topic f)
                              (assignment (state f)))) = Ok g /\
    state f' =
      with_groups (seed (state f))
        (set (cmb_student f) (cmb_topic f) (assignment (state f)))
        (invert_to_experts (set (cmb_student f) (cmb_topic f)
                                (assignment (state f))))
        g (state f) /\
    signals f' = signals f.
Proof.
  intros Hph Hs Ht. unfold _apply_change.
  rewrite decide_False by (intros [?|?]; done).
  destruct (build_stammgruppen_invert
              (set (cmb_student f) (cmb_topic f) (assignment (state f))))
    as (g & Hg).
  rewrite Hg. cbn [bind].
  match goal with
  | |- context [_render ?x] =>
      destruct (render_Ok x) as (f' & Hr & Hst & Hsig & _)
  end; [simpl; lia|].
  exists g, f'. split; [done|]. split; [done|]. by rewrite Hst, Hsig.
Qed.

(** Outside the phases 1 to 3 a reassignment that passes the test of the
    selections ends in the [KeyError] of [_render]. *)
Lemma apply_change_KeyError (f : PhaseFrame) :
  (phase (state f) < 1 \/ 3 < phase (state f))%Z ->
  cmb_student f <> "" -> cmb_topic f <> "" ->
  _apply_change f = Raise KeyError.
Proof.
  intros Hph Hs Ht. unfold _apply_change.
  rewrite decide_False by (intros [?|?]; done).
  destruct (build_stammgruppen_invert
              (set (cmb_student f) (cmb_topic f) (assignment (state f))))
    as (g & Hg).
  rewrite Hg. cbn [bind]. apply render_KeyError. simpl. lia.
Qed.

Lemma roster_assigned_set (st : AppState) (s t : string) (sd : Z)
    (e : dict (list string)) (g : list (list (string * string))) :
  roster_assigned st -> s ∈ students st -> t ∈ topics st ->
  roster_assigned (with_groups sd (set s t (assignment st)) e g st).
Proof.
  intros (Hnd & Hk & Hv) Hs Ht. split; [done|]. simpl. split.
  - rewrite keys_set_elem_of; [done|]. by rewrite Hk.
  - intros learner topic [[-> ->]|Hin]%elem_of_set; eauto.
Qed.

(** X13: in the phases 1 to 3, when the learner [s] is on the roster and
    [t] is one of the topics, [reassign] raises no exception and changes
    the topic of [s] to [t] and of nobody else: the learners of the
    assignment and their order stay, every learner still has a topic of
    the topic list, and the expert and home groups are those of the new
    assignment. *)
Theorem reassign_in_roster (f : PhaseFrame) (s t : string) :
  (1 <= phase (state f) <= 3)%Z ->
  roster_assigned (state f) ->
  s ∈ students (state f) -> t ∈ topics (state f) -> s <> "" -> t <> "" ->
  exists f',
    reassign s t f = Ok f' /\
    get s (assignment (state f')) = Some t /\
    (forall s', s' <> s ->
       get s' (assignment (state f')) = get s' (assignment (state f))) /\
    keys (assignment (state f')) = keys (assignment (state f)) /\
    roster_assigned (state f') /\
    groups_current (state f').
Proof.
  intros Hph Hra Hs Ht Hsne Htne. unfold reassign.
  destruct (apply_change_state (select s t f)) as (g & f' & Hf' & Hg & Hst & _);
    [done..|].
  cbn [cmb_student cmb_topic select state] in *.
  exists f'. split; [done|]. rewrite Hst. cbn [assignment with_groups].
  split; [apply get_set_eq|]. split; [intros s' Hne; by apply get_set_ne|].
  split.
  { apply keys_set_elem_of. destruct Hra as (_ & Hk & _). by rewrite Hk. }
  split; [by apply roster_assigned_set|]. by split.
Qed.

Lemma reassign_in_roster_sample :
  let f := sample_frame 1 480 false in
  exists f',
    reassign "A" "Y" f = Ok f' /\
    get "A" (assignment (state f')) = Some "Y" /\
    (forall s', s' <> "A" ->
       get s' (assignment (state f')) = get s' (assignment (state f))) /\
    keys (assignment (state f')) = keys (assignment (state f)) /\
    roster_assigned (state f') /\
    groups_current (state f').
Proof.
  apply (reassign_in_roster (sample_frame 1 480 false) "A" "Y").
  - simpl. lia.
  - split; [by_computation|]. split; [by_computation|].
    intros learner topic Hin.
    repeat (apply elem_of_cons in Hin as [[= -> ->]|Hin]; [by_computation|]).
    by apply elem_of_nil in Hin.
  - by_computation.
  - by_computation.
  - done.
  - done.
Defined.

Section Redeal.

Context {G : RandomGen}.

Lemma reshuffle_state (drawn : Z) (f : PhaseFrame) :
  phase (state f) = 1%Z ->
  NoDup (students (state f)) -> students (state f) <> [] ->
  topics (state f) <> [] ->
  exists a g f',
    _reshuffle drawn f = Ok f' /\
    assign_topics_evenly (students (state f)) (topics (state f)) drawn = Ok a /\
    keys a ≡ₚ students (state f) /\
    (forall learner topic, (learner, topic) ∈ a -> topic ∈ topics (state f)) /\
    build_stammgruppen (invert_to_experts a) = Ok g /\
    state f' = with_groups drawn a (invert_to_experts a) g (state f).
Proof.
  intros Hph Hnd Hs Ht. unfold _reshuffle.
  rewrite decide_False by (by intros ?).
  rewrite decide_False by (by intros [?|?]).
  destruct (roster_assigned_groups (students (state f)) (topics (state f))
              drawn Hnd Ht) as (a & g & Ha & Hg & Hk & Hv).
  rewrite Ha. cbn [bind]. rewrite Hg. cbn [bind].
  match goal with
  | |- context [_render ?x] => destruct (render_Ok x) as (f' & Hr & Hst & _)
  end; [simpl; lia|].
  exists a, g, f'. split; [done|]. split; [done|]. split; [done|].
  split; [done|]. split; [done|]. by rewrite Hst.
Qed.

(** X14: [_reshuffle] works in phase 1 only.  In any other phase, or
    without students or topics, it warns and changes nothing.  In phase 1,
    with a roster of unique names, it stores the drawn seed and the
    assignment that [assign_topics_evenly] computes for that seed, in
    which again every learner has a topic of the topic list, and rebuilds
    the expert and home groups from it; the countdown is not reset. *)
Theorem reshuffle_redeals (drawn : Z) (f : PhaseFrame) :
  (phase (state f) <> 1%Z \/ students (state f) = [] \/
   topics (state f) = [] ->
     exists f', _reshuffle drawn f = Ok f' /\ state f' = state f /\
       exists message,
         signals f' = signals f ++ [ShowWarning "Hinweis" message]) /\
  (phase (state f) = 1%Z -> students (state f) <> [] ->
   topics (state f) <> [] -> NoDup (students (state f)) ->
     exists f',
       _reshuffle drawn f = Ok f' /\
       seed (state f') = drawn /\
       assign_topics_evenly (students (state f)) (topics (state f)) drawn =
         Ok (assignment (state f')) /\
       roster_assigned (state f') /\
       groups_current (state f') /\
       seconds_left (state f') = seconds_left (state f) /\
       running (state f') = running (state f) /\
       phase (state f') = 1%Z).
Proof.
  split.
  - intros Hguard. unfold _reshuffle.
    destruct (decide (phase (state f) <> 1%Z)) as [Hph|Hph].
    + eexists. split; [done|]. split; [done|]. by eexists.
    + rewrite decide_True by (destruct Hguard as [?|[?|?]]; auto; done).
      eexists. split; [done|]. split; [done|]. by eexists.
  - intros Hph Hs Ht Hnd.
    destruct (reshuffle_state drawn f Hph Hnd Hs Ht)
      as (a & g & f' & Hf' & Ha & Hk & Hv & Hg & Hst).
    exists f'. split; [done|]. rewrite Hst. cbn.
    split; [done|]. split; [done|]. split; [by repeat split|].
    split; [by split|]. by repeat split.
Qed.

End Redeal.

Lemma reshuffle_redeals_sample :
  let late := sample_frame 2 480 false in
  let f := sample_frame 1 480 true in
  (exists f', @_reshuffle lcg 7 late = Ok f' /\ state f' = state late /\
     exists message,
       signals f' = signals late ++ [ShowWarning "Hinweis" message]) /\
  (exists f',
     @_reshuffle lcg 7 f = Ok f' /\
     seed (state f') = 7%Z /\
     @assign_topics_evenly lcg (students (state f)) (topics (state f)) 7 =
       Ok (assignment (state f')) /\
     roster_assigned (state f') /\
     groups_current (state f') /\
     seconds_left (state f') = seconds_left (state f) /\
     running (state f') = running (state f) /\
     phase (state f') = 1%Z).
Proof.
  intros late f.
  destruct (reshuffle_redeals (G := lcg) 7 late) as (Hwarn & _).
  destruct (reshuffle_redeals (G := lcg) 7 f) as (_ & Hdeal).
  split.
  - apply Hwarn. left. done.
  - apply Hdeal; [reflexivity|done|done|by_computation].
Defined.

(** ** The session invariant *)

Lemma session_ok_same_session (st st' : AppState) :
  same_session st st' -> session_ok st -> session_ok st'.
Proof.
  unfold same_session, session_ok, roster_assigned, groups_current.
  intros (Hs & Ht & _ & _ & _ & _ & _ & Ha & He & Hg & _ & Hp).
  rewrite Hs, Ht, Ha, He, Hg, Hp. done.
Qed.

Lemma next_last_phase_state (f : PhaseFrame) :
  ~ (phase (state f) < 3)%Z ->
  exists f', _next f = Ok f' /\ same_session (state f) (state f').
Proof.
  intros Hph. unfold _next.
  set (f0 := match _timer_job f with Some _ => cancel_timer f | None => f end).
  assert (state f0 = state f) as Hst by (unfold f0; by destruct (_timer_job f)).
  rewrite Hst, decide_False by done.
  eexists. split; [done|]. cbn. by repeat split.
Qed.

Lemma apply_change_empty (f : PhaseFrame) :
  cmb_student f = "" \/ cmb_topic f = "" ->
  exists f', _apply_change f = Ok f' /\ state f' = state f.
Proof.
  intros Hempty. unfold _apply_change. rewrite decide_True by done.
  by eexists.
Qed.

Section Invariant.

Context {G : RandomGen}.

Lemma perform_session_ok (op : operation) (f : PhaseFrame) :
  session_ok (state f) -> offered f op ->
  exists f',
    perform op f = Ok f' /\ session_ok (state f') /\
    students (state f') = students (state f) /\
    topics (state f') = topics (state f).
Proof.
  intros Hok Hoff. destruct op as [| | | |s t|drawn]; cbn [perform].
  - pose proof (tick_same_session f) as Hs.
    eexists. split; [done|]. split; [by eapply session_ok_same_session|].
    by destruct Hs as (? & ? & _).
  - pose proof (toggle_same_session f) as Hs.
    eexists. split; [done|]. split; [by eapply session_ok_same_session|].
    by destruct Hs as (? & ? & _).
  - pose proof (plus_minute_same_session f) as Hs.
    eexists. split; [done|]. split; [by eapply session_ok_same_session|].
    by destruct Hs as (? & ? & _).
  - destruct (decide (phase (state f) < 3)%Z) as [Hph|Hph].
    + destruct Hok as ((Hnd & Hk & Hv) & _ & Hsne & Htne & Hrange).
      destruct (next_before_last_phase f ltac:(lia))
        as (f' & Hf' & Hp & _ & _ & _ & _ & Hs & Ht & Ha & Hg).
      exists f'. split; [done|]. split; [|done].
      unfold session_ok, roster_assigned. rewrite Hs, Ht, Ha, Hp.
      split; [done|]. split; [done|]. split; [done|]. split; [done|]. lia.
    + destruct (next_last_phase_state f Hph) as (f' & Hf' & Hs).
      exists f'. split; [done|]. split; [by eapply session_ok_same_session|].
      by destruct Hs as (? & ? & _).
  - destruct Hoff as [Hs Ht]. unfold reassign.
    destruct (decide (s = "" \/ t = "")) as [Hempty|Hfull].
    + destruct (apply_change_empty (select s t f) Hempty) as (f' & Hf' & Hst).
      exists f'. split; [done|]. rewrite Hst. done.
    + assert (s <> "" /\ t <> "") as [Hsne Htne] by (split; intros ->; apply Hfull; auto).
      destruct Hs as [?|Hs]; [done|]. destruct Ht as [?|Ht]; [done|].
      destruct Hok as (Hra & _ & ? & ? & ?).
      destruct (apply_change_state (select s t f))
        as (g & f' & Hf' & Hg & Hst & _); [done..|].
      cbn [cmb_student cmb_topic select state] in *.
      exists f'. split; [done|]. rewrite Hst.
      split; [|done]. split; [by apply roster_assigned_set|].
      split; [by split|]. cbn. split; [done|]. split; done.
  - destruct Hok as (Hra & Hgc & Hsne & Htne & Hrange).
    destruct (decide (phase (state f) = 1%Z)) as [Hph|Hph].
    + destruct Hra as (Hnd & Hk & Hv).
      destruct (reshuffle_state drawn f Hph Hnd Hsne Htne)
        as (a & g & f' & Hf' & Ha & Hk' & Hv' & Hg & Hst).
      exists f'. split; [done|]. rewrite Hst. split; [|done].
      split; [by repeat split|]. split; [by split|]. cbn.
      split; [done|]. split; [done|]. lia.
    + destruct (reshuffle_guard drawn f) as (w & Hf' & Hst); [by left|].
      eexists. split; [done|]. rewrite Hst. split; [|done].
      split; [done|]. split; [done|]. split; [done|]. split; done.
Qed.

(** X15: a session in which every learner of the (duplicate-free,
    non-empty) roster has a topic of the topic list, the expert and home
    groups are those of the assignment and the phase is 1, 2 or 3 stays
    so: every operation that the phase frame offers (tick, start/pause,
    plus one minute, next phase, reassignment of a listed learner to a
    listed topic, reshuffle) returns without an exception and keeps these
    facts, the roster and the topic list. *)
Theorem session_invariant (f f' : PhaseFrame) :
  session_ok (state f) -> reaches f f' ->
  session_ok (state f') /\
  students (state f') = students (state f) /\
  topics (state f') = topics (state f) /\
  forall op, offered f' op -> exists f'', perform op f' = Ok f''.
Proof.
  intros Hok Hreach.
  assert (session_ok (state f') /\
          students (state f') = students (state f) /\
          topics (state f') = topics (state f)) as (Hok' & Hs & Ht).
  { induction Hreach as [|op f1 f2 Hreach IH Hoff Hperf]; [done|].
    destruct IH as (Hok1 & Hs1 & Ht1).
    destruct (perform_session_ok op f1 Hok1 Hoff) as (f2' & Hf2 & ? & ? & ?).
    rewrite Hperf in Hf2. injection Hf2 as <-.
    split; [done|]. split; congruence. }
  split; [done|]. split; [done|]. split; [done|].
  intros op Hoff.
  destruct (perform_session_ok op f' Hok' Hoff) as (f'' & Hf'' & _). eauto.
Qed.

End Invariant.

Lemma sample_session_ok : session_ok (state (sample_frame 1 480 false)).
Proof.
  split; [|split; [|split; [done|split; [done|simpl; lia]]]].
  - split; [by_computation|]. split; [by_computation|].
    intros learner topic Hin.
    repeat (apply elem_of_cons in Hin as [[= -> ->]|Hin]; [by_computation|]).
    by apply elem_of_nil in Hin.
  - split; reflexivity.
Defined.

Lemma session_invariant_sample :
  let f := sample_frame 1 480 false in
  let f' := _toggle f in
  session_ok (state f') /\
  students (state f') = students (state f) /\
  topics (state f') = topics (state f) /\
  forall op, offered f' op -> exists f'', @perform lcg op f' = Ok f''.
Proof.
  apply (session_invariant (G := lcg) (sample_frame 1 480 false)).
  - apply sample_session_ok.
  - apply (reaches_step _ Toggle (sample_frame 1 480 false)).
    + apply reaches_here.
    + exact I.
    + reflexivity.
Defined.

(** ** From the setup form to any later moment of the session *)

Section Started.

Context {S : PyStr} {G : RandomGen}.

Lemma start_session_ok (f : SetupFrame) :
  2 <= length (clean_lines (txt_names f)) ->
  2 <= length (entered_topics f) ->
  exists f' p,
    _start f = Ok f' /\ _to_phase f' = Ok p /\ session_ok (state p) /\
    students (state p) = clean_lines (txt_names f) /\
    topics (state p) = entered_topics f.
Proof.
  intros Hn Ht. unfold _start. rewrite !decide_False by lia.
  destruct (roster_assigned_groups (clean_lines (txt_names f))
              (entered_topics f) (var_seed f))
    as (a & g & Ha & Hg & Hk & Hv).
  { apply clean_lines_NoDup. }
  { intros He. rewrite He in Ht. simpl in Ht. lia. }
  rewrite Ha. cbn [bind]. rewrite Hg. cbn [bind].
  set (f0 := on_start _).
  destruct (render_Ok
              {| state := setup_state f0; _timer_job := None; jobs := 0;
                 cmb_student := ""; cmb_topic := ""; signals := [] |})
    as (p & Hr & Hst & _); [simpl; lia|].
  exists f0, p. split; [done|]. split; [exact Hr|]. rewrite Hst.
  split; [|done].
  unfold session_ok, roster_assigned, groups_current. cbn.
  split; [split; [apply clean_lines_NoDup|by split]|].
  split; [by split|].
  split; [by intros He; rewrite He in Hn; simpl in Hn; lia|].
  split; [by intros He; rewrite He in Ht; simpl in Ht; lia|lia].
Qed.

(** X16: after [_start] has accepted the form (at least two names, at
    least two topics), the phase frame is opened without an exception,
    and this frame and every frame reached from it by operations that the
    frame offers satisfy the session invariant: the roster is the cleaned
    list of names, without repetitions, every learner and nobody else has
    one of the entered topics, the expert and home groups are those of
    the current assignment, and the phase is 1, 2 or 3. *)
Theorem started_session_stays_ok (f : SetupFrame) :
  2 <= length (clean_lines (txt_names f)) ->
  2 <= length (entered_topics f) ->
  exists f0 p,
    _start f = Ok f0 /\
    _to_phase f0 = Ok p /\
    forall f', reaches p f' ->
      session_ok (state f') /\
      students (state f') = clean_lines (txt_names f) /\
      topics (state f') = entered_topics f.
Proof.
  intros Hn Ht.
  destruct (start_session_ok f Hn Ht) as (f0 & p & Hf0 & Hp & Hok & Hs0 & Ht0).
  exists f0, p. split; [done|]. split; [done|]. intros f' Hreach.
  rewrite <- Hs0, <- Ht0. clear Hs0 Ht0 Hf0 Hp.
  induction Hreach as [|op f1 f2 Hreach IH Hoff Hperf]; [done|].
  destruct IH as (Hok1 & Hs1 & Ht1).
  destruct (perform_session_ok op f1 Hok1 Hoff) as (f2' & Hf2 & ? & ? & ?).
  rewrite Hperf in Hf2. injection Hf2 as <-.
  split; [done|]. split; congruence.
Qed.

(** ** Simple groups from the setup form *)

(** X17: [_open_simple_groups] forms groups only when there are at least
    [max(2, count)] cleaned names; otherwise it warns and keeps the
    state.  When it forms groups there are exactly [max(2, count)] of
    them, none is empty, together they hold every cleaned name exactly
    once, and their sizes differ by at most 1: the clamping of
    [build_simple_groups] is never reached from the form. *)
Theorem open_simple_groups_cases (drawn : Z) (f : SetupFrame) :
  let count := Z.max 2 (var_simple_group_count f) in
  let names := clean_lines (txt_names f) in
  ((Z.of_nat (length names) < count)%Z ->
     exists message,
       _open_simple_groups drawn f =
       Ok (notify WarningBox "Hinweis" message f)) /\
  ((count <= Z.of_nat (length names))%Z ->
     exists groups,
       _open_simple_groups drawn f =
       Ok (with_setup_state (with_simple_groups groups (setup_state f)) f) /\
       Z.of_nat (length groups) = count /\
       Forall (fun g => g <> []) groups /\
       concat groups ≡ₚ names /\
       forall g1 g2, g1 ∈ groups -> g2 ∈ groups ->
         length g1 <= length g2 + 1).
Proof.
  intros count names. unfold _open_simple_groups. fold count names.
  split; intros Hcount.
  - rewrite decide_True by done. by eexists.
  - rewrite decide_False by lia.
    assert (names <> []) as Hne.
    { intros He. rewrite He in Hcount. simpl in Hcount. lia. }
    destruct (build_simple_groups_spec names count (Some drawn)
                (rng_seed drawn)) as (groups & Hg & Hlen & Hperm & Hsize);
      [lia|done|].
    rewrite Hg. cbn [bind]. exists groups. split; [done|].
    assert (0 < length groups <= length names) as Hc by lia.
    split; [lia|]. split; [|split; [done|]].
    + apply Forall_forall. intros g [k Hk]%list_elem_of_lookup Hnil.
      pose proof (Hsize k g Hk) as Hl. rewrite Hnil in Hl. simpl in Hl.
      rewrite count_mod_formula in Hl; [|lia|by eapply lookup_lt_Some].
      pose proof (Nat.div_str_pos (length names) (length groups) Hc). lia.
    + intros g1 g2 [k1 Hk1]%list_elem_of_lookup [k2 Hk2]%list_elem_of_lookup.
      rewrite (Hsize k1 g1 Hk1), (Hsize k2 g2 Hk2).
      apply count_mod_spread; [lia|by eapply lookup_lt_Some..].
Qed.

End Started.

Lemma open_simple_groups_cases_sample :
  let few := sample_setup "Ada, Bob" ["X"; "Y"] in
  let f := sample_setup "Ada, Bob; Cy, Dan, Eve" ["X"; "Y"] in
  (exists message,
     @_open_simple_groups plain_str lcg 7 few =
     Ok (notify WarningBox "Hinweis" message few)) /\
  (exists groups,
     @_open_simple_groups plain_str lcg 7 f =
     Ok (with_setup_state (with_simple_groups groups (setup_state f)) f) /\
     Z.of_nat (length groups) = Z.max 2 (var_simple_group_count f) /\
     Forall (fun g => g <> []) groups /\
     concat groups ≡ₚ @clean_lines plain_str (txt_names f) /\
     forall g1 g2, g1 ∈ groups -> g2 ∈ groups ->
       length g1 <= length g2 + 1).
Proof.
  intros few f.
  destruct (open_simple_groups_cases (S := plain_str) (G := lcg) 7 few)
    as (Hwarn & _).
  destruct (open_simple_groups_cases (S := plain_str) (G := lcg) 7 f)
    as (_ & Hgroups).
  split.
  - apply Hwarn. vm_compute. reflexivity.
  - apply Hgroups. vm_compute. discriminate.
Defined.

Lemma started_session_stays_ok_sample :
  let f := sample_setup "Ada, Bob; Cy, Ada" ["X"; " "; "Y "] in
  exists f0 p,
    @_start plain_str lcg f = Ok f0 /\
    _to_phase f0 = Ok p /\
    forall f', @reaches lcg p f' ->
      session_ok (state f') /\
      students (state f') = @clean_lines plain_str (txt_names f) /\
      topics (state f') = @entered_topics plain_str f.
Proof.
  apply (started_session_stays_ok (S := plain_str) (G := lcg)
           (sample_setup "Ada, Bob; Cy, Ada" ["X"; " "; "Y "])).
  - vm_compute. lia.
  - vm_compute. lia.
Defined.

(** ** Saving a class *)

Lemma saved_classes_refresh (selected : string) (f : SetupFrame) :
  saved_classes (_refresh_class_options selected f) = saved_classes f /\
  setup_state (_refresh_class_options selected f) = setup_state f /\
  notices (_refresh_class_options selected f) = notices f.
Proof. unfold _refresh_class_options. by repeat case_decide. Qed.

Section SaveClass.

Context {S : PyStr}.

(** X18: when the classes file cannot be written, [_save_class] leaves
    the saved classes exactly as they were, entries and order: a new entry
    is removed again and a replaced entry gets its previous value back. *)
Theorem save_class_rolls_back
    (persist : dict ClassConfig -> option string) (f : SetupFrame) :
  (forall d, reported (persist d) <> None) ->
  saved_classes (_save_class persist f) = saved_classes f.
Proof.
  intros Hfail. unfold _save_class.
  repeat (case_decide; [done|]).
  set (name := strip (var_class_name f)). set (config := Build_ClassConfig _ _ _ _ _).
  set (f3 := _refresh_class_options name _).
  assert (saved_classes f3 = set name config (saved_classes f)) as Hsaved.
  { unfold f3. by rewrite (proj1 (saved_classes_refresh _ _)). }
  destruct (reported (persist (saved_classes f3))) as [error|] eqn:Hp;
    [|by apply Hfail in Hp].
  cbn [saved_classes notify].
  rewrite (proj1 (saved_classes_refresh _ _)). cbn [saved_classes with_saved_classes].
  rewrite Hsaved.
  destruct (get name (saved_classes f)) as [previous|] eqn:Hget.
  - by apply set_set_previous.
  - by apply pop_set_fresh.
Qed.

(** X19: when the form names a class, at least one learner and at least
    one topic, and the classes file is written, [_save_class] stores the
    cleaned names, the entered topics and the three durations under the
    stripped class name, keeps every other saved class, makes that name
    the current class and the selected entry, and reports success. *)
Theorem save_class_stores
    (persist : dict ClassConfig -> option string) (f : SetupFrame) :
  (forall d, persist d = None) ->
  strip (var_class_name f) <> "" ->
  clean_lines (txt_names f) <> [] ->
  1 <= length (entered_topics f) ->
  let name := strip (var_class_name f) in
  let f' := _save_class persist f in
  get name (saved_classes f') =
    Some {| cfg_students := clean_lines (txt_names f);
            cfg_topics := entered_topics f;
            cfg_dur_read := var_read f; cfg_dur_expert := var_expert f;
            cfg_dur_stamm := var_stamm f |} /\
  (forall other, other <> name ->
     get other (saved_classes f') = get other (saved_classes f)) /\
  class_name (setup_state f') = name /\
  cmb_classes f' = name /\
  notices f' =
    notices f ++
    [Notice InfoBox "Gespeichert" ("Klasse '" +:+ name +:+ "' wurde gesichert.")].
Proof.
  intros Hok Hname Hnames Htopics name f'. unfold f', _save_class.
  fold name. rewrite !decide_False by (done || lia).
  set (config := Build_ClassConfig _ _ _ _ _).
  set (f3 := _refresh_class_options name _).
  rewrite Hok. cbn [reported saved_classes setup_state cmb_classes notices notify].
  assert (name ∈ keys (set name config (saved_classes f))) as Hin.
  { assert (get name (set name config (saved_classes f)) <> None) as Hget
      by (by rewrite get_set_eq).
    rewrite get_None_not_elem_of in Hget.
    by destruct (decide (name ∈ keys (set name config (saved_classes f)))). }
  unfold f3, _refresh_class_options.
  cbn [saved_classes with_setup_state with_saved_classes].
  rewrite decide_True by done. cbn.
  split; [apply get_set_eq|]. split; [|done].
  intros other Hne. by apply get_set_ne.
Qed.

End SaveClass.

Lemma save_class_rolls_back_sample :
  saved_classes
    (@_save_class plain_str (fun _ => Some "disk full")
       (sample_setup "Ada, Bob" ["X"; "Y"])) =
  saved_classes (sample_setup "Ada, Bob" ["X"; "Y"]).
Proof.
  apply (save_class_rolls_back (S := plain_str) (fun _ => Some "disk full")
           (sample_setup "Ada, Bob" ["X"; "Y"])).
  done.
Defined.

Lemma save_class_stores_sample :
  let f := sample_setup "Ada, Bob" ["X"; "Y"] in
  let name := @strip plain_str (var_class_name f) in
  let f' := @_save_class plain_str (fun _ => None) f in
  get name (saved_classes f') =
    Some {| cfg_students := @clean_lines plain_str (txt_names f);
            cfg_topics := @entered_topics plain_str f;
            cfg_dur_read := var_read f; cfg_dur_expert := var_expert f;
            cfg_dur_stamm := var_stamm f |} /\
  (forall other, other <> name ->
     get other (saved_classes f') = get other (saved_classes f)) /\
  class_name (setup_state f') = name /\
  cmb_classes f' = name /\
  notices f' =
    notices f ++
    [Notice InfoBox "Gespeichert" ("Klasse '" +:+ name +:+ "' wurde gesichert.")].
Proof.
  apply (save_class_stores (S := plain_str) (fun _ => None)
           (sample_setup "Ada, Bob" ["X"; "Y"])).
  - done.
  - by vm_compute.
  - by vm_compute.
  - vm_compute. lia.
Defined.

(** ** The phase-1 view *)

Lemma get_blank_topics (topic_list : list string) (d : dict (list string))
    (topic : string) :
  get topic (foldl (fun d t => set t [] d) d topic_list) =
  if decide (topic ∈ topic_list) then Some [] else get topic d.
Proof.
  revert d. induction topic_list as [|x l IH]; intros d; cbn [foldl].
  - rewrite decide_False; [done|]. apply not_elem_of_nil.
  - rewrite IH. destruct (decide (topic ∈ l)) as [Hin|Hin].
    + rewrite decide_True; [done|]. by right.
    + destruct (decide (x = topic)) as [->|Hne].
      * rewrite get_set_eq, decide_True; [done|]. by left.
      * rewrite get_set_ne by done. rewrite decide_False; [done|].
        rewrite elem_of_cons. intros [?|?]; [by subst|done].
Qed.

(** X20: the phase-1 view lists every topic of the topic list, also one
    without learners (with an empty list), and every topic that some
    learner has; the list shown under a topic is the sorted list of its
    learners, the bucket that [invert_to_experts] gives where it has
    one. *)
Theorem phase1_groups_lookup (topic_list : list string) (a : dict string)
    (topic : string) :
  get topic (phase1_groups topic_list a) =
  if decide (topic ∈ topic_list \/ learners_of a topic <> [])
  then Some (sort (learners_of a topic))
  else None.
Proof.
  unfold phase1_groups.
  rewrite get_sorted, get_collect_experts, get_blank_topics.
  destruct (decide (learners_of a topic = [])) as [Hl|Hl];
    destruct (decide (topic ∈ topic_list)) as [Hin|Hin]; cbn.
  - rewrite decide_True by auto. by rewrite Hl.
  - rewrite decide_False; [done|]. by intros [?|?].
  - by rewrite decide_True by auto.
  - by rewrite decide_True by auto.
Qed.

(** ** The clock text *)

Lemma two_digits_below_100 (n : nat) :
  n < 100 ->
  exists c1 c2,
    two_digits (Z.of_nat n) = String c1 (String c2 EmptyString) /\
    digits_value c1 c2 = n.
Proof.
  intros Hn.
  assert (forallb two_digits_ok (seq 0 100) = true) as Hall
    by (vm_compute; reflexivity).
  rewrite forallb_forall in Hall.
  specialize (Hall n ltac:(apply in_seq; lia)).
  unfold two_digits_ok in Hall.
  destruct (two_digits (Z.of_nat n)) as [|c1 [|c2 [|c3 rest]]]; try done.
  apply bool_decide_eq_true in Hall. eauto.
Qed.

Lemma mmss_digits (sec : Z) :
  (0 <= sec < 6000)%Z ->
  exists c1 c2 c3 c4,
    mmss sec =
      String c1 (String c2 (String ":" (String c3 (String c4 EmptyString)))) /\
    Z.of_nat (digits_value c1 c2) = (sec / 60)%Z /\
    Z.of_nat (digits_value c3 c4) = (sec mod 60)%Z.
Proof.
  intros Hsec. unfold mmss. rewrite Z.max_r by lia.
  assert (0 <= sec / 60 < 100)%Z as Hm.
  { split; [apply Z.div_pos; lia|apply Z.div_lt_upper_bound; lia]. }
  pose proof (Z.mod_pos_bound sec 60 ltac:(lia)) as Hs.
  destruct (two_digits_below_100 (Z.to_nat (sec / 60)) ltac:(lia))
    as (c1 & c2 & Hm' & Hv1).
  destruct (two_digits_below_100 (Z.to_nat (sec mod 60)) ltac:(lia))
    as (c3 & c4 & Hs' & Hv2).
  rewrite Z2Nat.id in Hm', Hs' by lia.
  exists c1, c2, c3, c4. rewrite Hm', Hs'. split; [done|]. lia.
Qed.

(** X21: [mmss] shows every time that is zero or negative as 00:00.  For
    a time below 100 minutes the text has the five characters MM:SS, and
    two such times with the same text are equal. *)
Theorem mmss_text (a b : Z) :
  ((a <= 0)%Z -> mmss a = "00:00") /\
  ((0 <= a < 6000)%Z -> String.length (mmss a) = 5) /\
  ((0 <= a < 6000)%Z -> (0 <= b < 6000)%Z -> mmss a = mmss b -> a = b).
Proof.
  split; [|split].
  - intros Ha. unfold mmss. by rewrite Z.max_l by lia.
  - intros Ha. destruct (mmss_digits a Ha) as (c1 & c2 & c3 & c4 & -> & _).
    done.
  - intros Ha Hb Heq.
    destruct (mmss_digits a Ha) as (c1 & c2 & c3 & c4 & Ha' & Hm & Hs).
    destruct (mmss_digits b Hb) as (d1 & d2 & d3 & d4 & Hb' & Hm' & Hs').
    rewrite Ha', Hb' in Heq. injection Heq as -> -> -> ->.
    rewrite (Z.div_mod a 60), (Z.div_mod b 60) by lia. congruence.
Qed.

(** ** Pausing does not cancel the pending callback *)

Lemma registered_one (f f' : PhaseFrame) :
  jobs f' = S (jobs f) -> registered f f' = [jobs f].
Proof.
  intros Hj. unfold registered. rewrite Hj.
  by rewrite Nat.sub_succ_l, Nat.sub_diag by lia.
Qed.

Lemma registered_none (f f' : PhaseFrame) :
  jobs f' = jobs f -> registered f f' = [].
Proof. intros Hj. unfold registered. by rewrite Hj, Nat.sub_diag. Qed.

Lemma fire_running (job : nat) (l : EventLoop) :
  job ∈ pending l ->
  running (state (frame l)) = true ->
  (0 < seconds_left (state (frame l)))%Z ->
  pending (fire job l) =
    filter (fun j => j <> job) (pending l) ++ [jobs (frame l)] /\
  running (state (frame (fire job l))) = true /\
  seconds_left (state (frame (fire job l))) =
    (seconds_left (state (frame l)) - 1)%Z /\
  jobs (frame (fire job l)) = S (jobs (frame l)).
Proof.
  intros Hin Hrun Hsec. unfold fire. rewrite decide_True by done.
  cbn [frame pending].
  assert (jobs (_tick (frame l)) = S (jobs (frame l))) as Hj.
  { unfold _tick. by rewrite Hrun, decide_True. }
  rewrite (registered_one _ _ Hj).
  destruct (tick_running (frame l) Hrun Hsec) as [-> _]. done.
Qed.

Lemma press_toggle_pause (l : EventLoop) :
  running (state (frame l)) = true ->
  pending (press_toggle l) = pending l /\
  running (state (frame (press_toggle l))) = false /\
  seconds_left (state (frame (press_toggle l))) =
    seconds_left (state (frame l)) /\
  jobs (frame (press_toggle l)) = jobs (frame l).
Proof.
  intros Hrun. unfold press_toggle. cbn [frame pending].
  assert (jobs (_toggle (frame l)) = jobs (frame l)) as Hj.
  { unfold _toggle. cbn. by rewrite Hrun. }
  rewrite (registered_none _ _ Hj), app_nil_r.
  unfold _toggle. cbn. by rewrite Hrun.
Qed.

Lemma press_toggle_resume (l : EventLoop) :
  running (state (frame l)) = false ->
  (0 < seconds_left (state (frame l)))%Z ->
  pending (press_toggle l) = pending l ++ [jobs (frame l)] /\
  running (state (frame (press_toggle l))) = true /\
  seconds_left (state (frame (press_toggle l))) =
    (seconds_left (state (frame l)) - 1)%Z /\
  jobs (frame (press_toggle l)) = S (jobs (frame l)).
Proof.
  intros Hrun Hsec. unfold press_toggle. cbn [frame pending].
  assert (jobs (_toggle (frame l)) = S (jobs (frame l))) as Hj.
  { unfold _toggle, _tick. cbn. rewrite Hrun. cbn. by rewrite decide_True. }
  rewrite (registered_one _ _ Hj).
  unfold _toggle, _tick. cbn. rewrite Hrun. cbn. by rewrite decide_True.
Qed.

(** X22: [_toggle] never cancels a callback.  When a running countdown
    with one pending callback is paused and resumed before that callback
    has fired, the resume registers a second callback beside it; both
    find the timer running, and each of them takes a second off and
    registers its successor, so that two callbacks stay pending and the
    clock loses two seconds where it lost one before. *)
Theorem pause_resume_doubles_ticks (l : EventLoop) (job : nat) (k : Z) :
  running (state (frame l)) = true ->
  seconds_left (state (frame l)) = k -> (3 <= k)%Z ->
  pending l = [job] -> job < jobs (frame l) ->
  let n := jobs (frame l) in
  let l2 := press_toggle (press_toggle l) in
  let l3 := fire n (fire job l2) in
  pending (fire job l) = [n] /\
  seconds_left (state (frame (fire job l))) = (k - 1)%Z /\
  pending l2 = [job; n] /\
  running (state (frame l2)) = true /\
  seconds_left (state (frame l2)) = (k - 1)%Z /\
  pending l3 = [n + 1; n + 2] /\
  running (state (frame l3)) = true /\
  seconds_left (state (frame l3)) = (k - 3)%Z.
Proof.
  intros Hrun Hsec Hk Hp Hjob n l2 l3.
  destruct (fire_running job l) as (Hp0 & _ & Hs0 & _);
    [rewrite Hp; left|done|lia|].
  rewrite Hp in Hp0.
  rewrite (filter_cons (fun j => j <> job) job), decide_False in Hp0
    by (by intros ?).
  destruct (press_toggle_pause l Hrun) as (Hp1 & Hr1 & Hs1 & Hj1).
  destruct (press_toggle_resume (press_toggle l) Hr1) as (Hp2 & Hr2 & Hs2 & Hj2);
    [lia|].
  fold l2 in Hp2, Hr2, Hs2, Hj2.
  rewrite Hp1, Hp, Hj1 in Hp2. rewrite Hs1, Hsec in Hs2. rewrite Hj1 in Hj2.
  fold n in Hp2, Hj2. cbn [app] in Hp2.
  destruct (fire_running job l2) as (Hp3 & Hr3 & Hs3 & Hj3);
    [rewrite Hp2; left|done|lia|].
  rewrite Hp2 in Hp3.
  rewrite (filter_cons (fun j => j <> job) job), decide_False in Hp3
    by (by intros ?).
  rewrite (filter_cons (fun j => j <> job) n), decide_True in Hp3
    by (unfold n; lia).
  rewrite filter_nil, Hj2 in Hp3. cbn [app] in Hp3.
  destruct (fire_running n (fire job l2)) as (Hp4 & Hr4 & Hs4 & Hj4);
    [rewrite Hp3; left|done|lia|].
  fold l3 in Hp4, Hr4, Hs4.
  rewrite Hp3 in Hp4.
  rewrite (filter_cons (fun j => j <> n) n), decide_False in Hp4
    by (by intros ?).
  rewrite (filter_cons (fun j => j <> n) (S n)), decide_True in Hp4 by lia.
  rewrite filter_nil, Hj3, Hj2 in Hp4. cbn [app] in Hp4.
  split; [by rewrite Hp0|]. split; [by rewrite Hs0, Hsec|].
  split; [done|]. split; [done|]. split; [done|].
  split; [rewrite Hp4; f_equal; [lia|f_equal; lia]|].
  split; [done|]. rewrite Hs4, Hs3, Hs2. lia.
Qed.

Lemma pause_resume_doubles_ticks_sample :
  let l := {| frame := after_tick (sample_frame 1 480 true); pending := [0] |} in
  let n := jobs (frame l) in
  let l2 := press_toggle (press_toggle l) in
  let l3 := fire n (fire 0 l2) in
  pending (fire 0 l) = [n] /\
  seconds_left (state (frame (fire 0 l))) = (480 - 1)%Z /\
  pending l2 = [0; n] /\
  running (state (frame l2)) = true /\
  seconds_left (state (frame l2)) = (480 - 1)%Z /\
  pending l3 = [n + 1; n + 2] /\
  running (state (frame l3)) = true /\
  seconds_left (state (frame l3)) = (480 - 3)%Z.
Proof.
  apply (pause_resume_doubles_ticks
           {| frame := after_tick (sample_frame 1 480 true); pending := [0] |}
           0 480).
  - reflexivity.
  - reflexivity.
  - lia.
  - reflexivity.
  - simpl. lia.
Defined.

(** ** Loading, resetting and deleting a class *)

Lemma get_pop_ne {V} (k k' : string) (d : dict V) :
  k <> k' -> get k' (pop k d) = get k' d.
Proof.
  intros Hne. induction d as [|[k0 v0] d IH]; [done|]. cbn [pop get].
  destruct (decide (k0 = k)) as [->|Hk0].
  - by rewrite decide_False.
  - cbn [get]. by rewrite IH.
Qed.

Lemma get_pop_eq {V} (k : string) (d : dict V) :
  NoDup (keys d) -> get k (pop k d) = None.
Proof.
  induction d as [|[k0 v0] d IH]; [done|].
  rewrite keys_cons. intros [Hk0 Hnd]%NoDup_cons. cbn [pop].
  destruct (decide (k0 = k)) as [->|Hne].
  - by apply get_None_not_elem_of.
  - cbn [get]. rewrite decide_False by done. by apply IH.
Qed.

Lemma get_set_pop {V} (k k' : string) (v : V) (d : dict V) :
  get k d = Some v -> get k' (set k v (pop k d)) = get k' d.
Proof.
  intros Hget. destruct (decide (k = k')) as [<-|Hne].
  - by rewrite get_set_eq.
  - by rewrite get_set_ne, get_pop_ne.
Qed.

Lemma default_topic_nonempty (i : nat) : default_topic i <> "".
Proof. done. Qed.

Lemma topic_label_nonempty (previous : list string) (i : nat) :
  topic_label previous i <> "".
Proof.
  unfold topic_label. destruct (previous !! i) as [label|]; [|done].
  by case_decide.
Qed.

Lemma topic_labels_filled (previous : list string) (n : nat) :
  Forall (fun label => label <> "") previous -> length previous <= n ->
  topic_label previous <$> seq 0 n =
  previous ++ (default_topic <$> seq (length previous) (n - length previous)).
Proof.
  intros Hall Hlen. apply list_eq. intros i.
  rewrite list_lookup_fmap.
  destruct (decide (i < length previous)) as [Hi|Hi].
  - rewrite lookup_app_l by done.
    rewrite lookup_seq_lt by lia. cbn.
    destruct (lookup_lt_is_Some_2 previous i Hi) as [label Hlabel].
    unfold topic_label. rewrite Hlabel.
    rewrite decide_False; [done|].
    apply (proj1 (Forall_forall _ _) Hall). by eapply list_elem_of_lookup_2.
  - rewrite lookup_app_r by lia. rewrite list_lookup_fmap.
    destruct (decide (i < n)) as [Hn|Hn].
    + rewrite !lookup_seq_lt by lia. cbn. unfold topic_label.
      rewrite lookup_ge_None_2 by lia. f_equal. f_equal. lia.
    + by rewrite !lookup_seq_ge by lia.
Qed.

Section Classes.

Context {S : PyStr}.

(** X23: [_render_topics_inputs] always leaves at least two topic fields,
    [max(2, var_topic_count)] of them, and none is blank.  The texts it
    starts from are the list handed in or, without one, the stripped
    texts of the fields as they are; a field takes the text of its
    position if there is one and it is not empty, and the label "Thema
    i+1" (counting the fields from 1) if the position is missing or its
    text is empty. *)
Theorem render_topics_inputs_fields (given : option (list string))
    (f : SetupFrame) :
  let previous :=
    match given with
    | Some entries => entries
    | None => strip <$> topic_vars f
    end in
  let f' := _render_topics_inputs given f in
  Z.of_nat (length (topic_vars f')) = Z.max 2 (var_topic_count f) /\
  2 <= length (topic_vars f') /\
  Forall (fun label => label <> "") (topic_vars f') /\
  (forall i label,
     i < length (topic_vars f') ->
     previous !! i = Some label -> label <> "" ->
     topic_vars f' !! i = Some label) /\
  (forall i,
     i < length (topic_vars f') ->
     previous !! i = None \/ previous !! i = Some "" ->
     topic_vars f' !! i = Some ("Thema " +:+ pretty (i + 1))).
Proof.
  intros previous f'. unfold f', _render_topics_inputs. fold previous.
  cbn [topic_vars with_topic_vars].
  rewrite length_fmap, length_seq. split; [lia|]. split; [lia|]. split.
  { apply Forall_fmap, Forall_forall. intros i _. apply topic_label_nonempty. }
  split.
  - intros i label Hi Hlabel Hne.
    rewrite list_lookup_fmap, lookup_seq_lt by done. cbn.
    unfold topic_label. rewrite Hlabel. by rewrite decide_False.
  - intros i Hi Hnone.
    rewrite list_lookup_fmap, lookup_seq_lt by done. cbn.
    rewrite Nat.add_1_r.
    unfold topic_label. destruct Hnone as [-> | ->]; [done|].
    by rewrite decide_True.
Qed.

Lemma delete_class_kept (persist : dict ClassConfig -> option string)
    (confirmed : bool) (drawn : Z) (f : SetupFrame) :
  confirmed = false \/ (forall d, reported (persist d) <> None) ->
  let f' := _delete_class persist confirmed drawn f in
  (forall name, get name (saved_classes f') = get name (saved_classes f)) /\
  setup_state f' = setup_state f /\
  var_class_name f' = var_class_name f /\
  txt_names f' = txt_names f /\
  topic_vars f' = topic_vars f.
Proof.
  intros Hkept f'. unfold f', _delete_class.
  set (name := if decide (strip (cmb_classes f) = "") then _ else _).
  destruct (get name (saved_classes f)) as [config|] eqn:Hget; [|done].
  case_decide; [done|].
  destruct confirmed; cbn [negb]; [|done].
  destruct Hkept as [?|Hfail]; [done|].
  cbn [saved_classes with_saved_classes].
  destruct (reported (persist (pop name (saved_classes f)))) as [error|] eqn:Hp;
    [|by apply Hfail in Hp].
  cbn [saved_classes setup_state var_class_name txt_names topic_vars notify].
  unfold _refresh_class_options.
  repeat case_decide; cbn; (split; [|done]); intros k; by apply get_set_pop.
Qed.

(** X24: [_delete_class] removes nothing unless the operator confirms and
    the classes file can be written: when the question is answered with
    no, or writing reports an error, every saved class is still there
    with its configuration, and the names, the topics, the class name of
    the form and the shared state are untouched. *)
Theorem delete_class_keeps (persist : dict ClassConfig -> option string)
    (confirmed : bool) (drawn : Z) (f : SetupFrame) :
  confirmed = false \/ (forall d, reported (persist d) <> None) ->
  let f' := _delete_class persist confirmed drawn f in
  (forall name, get name (saved_classes f') = get name (saved_classes f)) /\
  setup_state f' = setup_state f /\
  var_class_name f' = var_class_name f /\
  txt_names f' = txt_names f /\
  topic_vars f' = topic_vars f.
Proof. intros Hkept. by apply delete_class_kept. Qed.

(** X25: confirmed, and with the classes file written, [_delete_class]
    removes the class named by the combobox (or, when that is empty, by
    the name field) if it is a saved class, keeps every other saved
    class, and resets the form: no class name, no names, four topic
    fields, the durations the frame started with, and a fresh seed. *)
Theorem delete_class_removes (persist : dict ClassConfig -> option string)
    (drawn : Z) (f : SetupFrame) :
  let name :=
    if decide (strip (cmb_classes f) = "") then strip (var_class_name f)
    else strip (cmb_classes f) in
  (forall d, persist d = None) ->
  NoDup (keys (saved_classes f)) ->
  name <> "" -> name ∈ keys (saved_classes f) ->
  let f' := _delete_class persist true drawn f in
  get name (saved_classes f') = None /\
  (forall other, other <> name ->
     get other (saved_classes f') = get other (saved_classes f)) /\
  cmb_classes f' = "" /\ var_class_name f' = "" /\
  class_name (setup_state f') = "" /\
  txt_names f' = text_of "" /\
  length (topic_vars f') = 4 /\
  (var_read f', var_expert f', var_stamm f') = _defaults f /\
  var_seed f' = drawn /\
  notices f' =
    notices f ++
    [Notice InfoBox "Geloescht" ("Klasse '" +:+ name +:+ "' wurde entfernt.")].
Proof.
  intros name Hok Hnd Hname Hin f'. unfold f', _delete_class. fold name.
  destruct (get name (saved_classes f)) as [config|] eqn:Hget;
    [|by apply get_None_not_elem_of in Hget].
  rewrite decide_False by done. cbn [negb].
  rewrite Hok. cbn [reported].
  set (f1 := with_saved_classes _ f).
  set (f2 := _refresh_class_options "" f1).
  assert (saved_classes f2 = pop name (saved_classes f) /\
          notices f2 = notices f /\ _defaults f2 = _defaults f) as (Hs & Hn & Hd).
  { unfold f2, _refresh_class_options. by repeat case_decide. }
  cbn. rewrite Hs, Hn, Hd.
  split; [by apply get_pop_eq|].
  split; [intros other Hne; by apply get_pop_ne|].
  by destruct (_defaults f) as [[? ?] ?].
Qed.

Lemma save_class_frame (persist : dict ClassConfig -> option string)
    (f : SetupFrame) :
  (forall d, persist d = None) ->
  strip (var_class_name f) <> "" ->
  clean_lines (txt_names f) <> [] ->
  1 <= length (entered_topics f) ->
  let name := strip (var_class_name f) in
  let config :=
    {| cfg_students := clean_lines (txt_names f);
       cfg_topics := entered_topics f;
       cfg_dur_read := var_read f; cfg_dur_expert := var_expert f;
       cfg_dur_stamm := var_stamm f |} in
  _save_class persist f =
  notify InfoBox "Gespeichert" ("Klasse '" +:+ name +:+ "' wurde gesichert.")
    (with_cmb_classes name
       (with_setup_state (with_class_name name (setup_state f))
          (with_saved_classes (set name config (saved_classes f)) f))).
Proof.
  intros Hok Hname Hnames Htopics name config. unfold _save_class.
  fold name. rewrite !decide_False by (done || lia). fold config.
  rewrite Hok. cbn [reported]. f_equal.
  unfold _refresh_class_options.
  cbn [saved_classes with_setup_state with_saved_classes].
  rewrite decide_True; [done|]. split; [done|].
  assert (get name (set name config (saved_classes f)) <> None) as Hget
    by (by rewrite get_set_eq).
  rewrite get_None_not_elem_of in Hget.
  by destruct (decide (name ∈ keys (set name config (saved_classes f)))).
Qed.

(** X26: a class saved with [_save_class] and loaded again with
    [_load_selected_class] comes back as it was entered: the name field
    and the current class are the stripped class name, the names field
    holds the cleaned names one per line, the durations are those of the
    form, and with two or more entered topics the topic fields hold
    exactly these topics.  A class saved with a single topic comes back
    with a second topic field, "Thema 2".  (That [strip] leaves the
    stripped class name as it is, is a hypothesis on the name.) *)
Theorem load_after_save (persist : dict ClassConfig -> option string)
    (drawn : Z) (f : SetupFrame) :
  let name := strip (var_class_name f) in
  (forall d, persist d = None) ->
  name <> "" -> strip name = name ->
  clean_lines (txt_names f) <> [] ->
  1 <= length (entered_topics f) ->
  let f' := _load_selected_class drawn (_save_class persist f) in
  var_class_name f' = name /\
  class_name (setup_state f') = name /\
  cmb_classes f' = name /\
  txt_names f' =
    text_of (String.concat line_feed (clean_lines (txt_names f))) /\
  (var_read f', var_expert f', var_stamm f') =
    (var_read f, var_expert f, var_stamm f) /\
  var_seed f' = drawn /\
  (2 <= length (entered_topics f) -> topic_vars f' = entered_topics f) /\
  (length (entered_topics f) = 1 ->
     topic_vars f' = entered_topics f ++ ["Thema 2"]) /\
  saved_classes f' = saved_classes (_save_class persist f).
Proof.
  intros name Hok Hname Hstrip Hnames Htopics f'. unfold f'.
  rewrite (save_class_frame persist f Hok Hname Hnames Htopics). fold name.
  set (config := Build_ClassConfig _ _ _ _ _).
  unfold _load_selected_class. cbn [cmb_classes notify with_cmb_classes].
  rewrite Hstrip. rewrite decide_False by done.
  cbn [saved_classes notify with_cmb_classes with_setup_state with_saved_classes].
  rewrite get_set_eq.
  assert (entered_topics f <> []) as Hne.
  { intros He. rewrite He in Htopics. simpl in Htopics. lia. }
  cbn [cfg_students cfg_topics cfg_dur_read cfg_dur_expert cfg_dur_stamm config].
  rewrite !decide_False by done.
  assert (name ∈ keys (set name config (saved_classes f))) as Hin.
  { assert (get name (set name config (saved_classes f)) <> None) as Hget
      by (by rewrite get_set_eq).
    rewrite get_None_not_elem_of in Hget.
    by destruct (decide (name ∈ keys (set name config (saved_classes f)))). }
  match goal with
  | |- context [_refresh_class_options name ?g] => set (loaded := g)
  end.
  assert (saved_classes loaded = set name config (saved_classes f)) as Hs
    by reflexivity.
  unfold _refresh_class_options. rewrite Hs, decide_True by done.
  assert (Forall (fun label => label <> "") (entered_topics f)) as Hfilled.
  { apply Forall_forall. intros label Hl.
    unfold entered_topics in Hl. by apply list_elem_of_filter in Hl as [? _]. }
  assert (topic_vars (with_cmb_classes name loaded) =
          topic_label (entered_topics f) <$>
            seq 0 (Z.to_nat
                     (Z.max 2 (Z.max 2 (Z.of_nat (length (entered_topics f)))))))
    as Hvars by reflexivity.
  split; [reflexivity|]. split; [reflexivity|]. split; [reflexivity|].
  split; [reflexivity|]. split; [reflexivity|]. split; [reflexivity|].
  split; [|split; [|reflexivity]].
  - intros Htwo. rewrite Hvars.
    replace (Z.to_nat (Z.max 2 (Z.max 2 (Z.of_nat (length (entered_topics f))))))
      with (length (entered_topics f)) by lia.
    rewrite topic_labels_filled by done.
    by rewrite Nat.sub_diag, app_nil_r.
  - intros Hone. rewrite Hvars, Hone.
    rewrite topic_labels_filled by (done || lia). by rewrite Hone.
Qed.

End Classes.

Lemma render_topics_inputs_fields_sample :
  let f := sample_setup "Ada, Bob" [" X "; " "; "Y"] in
  let previous := @strip plain_str <$> topic_vars f in
  let f' := @_render_topics_inputs plain_str None f in
  topic_vars f' = ["X"; "Thema 2"; "Y"; "Thema 4"] /\
  Z.of_nat (length (topic_vars f')) = Z.max 2 (var_topic_count f) /\
  2 <= length (topic_vars f') /\
  Forall (fun label => label <> "") (topic_vars f') /\
  (forall i label,
     i < length (topic_vars f') ->
     previous !! i = Some label -> label <> "" ->
     topic_vars f' !! i = Some label) /\
  (forall i,
     i < length (topic_vars f') ->
     previous !! i = None \/ previous !! i = Some "" ->
     topic_vars f' !! i = Some ("Thema " +:+ pretty (i + 1))).
Proof.
  split; [by vm_compute|].
  apply (render_topics_inputs_fields (S := plain_str) None
           (sample_setup "Ada, Bob" [" X "; " "; "Y"])).
Defined.

Lemma delete_class_keeps_sample :
  let f := saved_setup in
  let f' := @_delete_class plain_str (fun _ => Some "disk full") true 7 f in
  (forall name, get name (saved_classes f') = get name (saved_classes f)) /\
  setup_state f' = setup_state f /\
  var_class_name f' = var_class_name f /\
  txt_names f' = txt_names f /\
  topic_vars f' = topic_vars f.
Proof.
  apply (delete_class_keeps (S := plain_str) (fun _ => Some "disk full") true 7
           saved_setup).
  right. done.
Defined.

Lemma delete_class_removes_sample :
  let f := saved_setup in
  let name := "1a" in
  let f' := @_delete_class plain_str (fun _ => None) true 7 f in
  get name (saved_classes f') = None /\
  (forall other, other <> name ->
     get other (saved_classes f') = get other (saved_classes f)) /\
  cmb_classes f' = "" /\ var_class_name f' = "" /\
  class_name (setup_state f') = "" /\
  txt_names f' = text_of "" /\
  length (topic_vars f') = 4 /\
  (var_read f', var_expert f', var_stamm f') = _defaults f /\
  var_seed f' = 7%Z /\
  notices f' =
    notices f ++
    [Notice InfoBox "Geloescht" ("Klasse '" +:+ name +:+ "' wurde entfernt.")].
Proof.
  apply (delete_class_removes (S := plain_str) (fun _ => None) 7 saved_setup).
  - done.
  - by_computation.
  - by vm_compute.
  - by_computation.
Defined.

Lemma load_after_save_sample :
  let f := sample_setup "Ada, Bob" ["X"; "Y"] in
  let name := @strip plain_str (var_class_name f) in
  let f' :=
    @_load_selected_class plain_str 7 (@_save_class plain_str (fun _ => None) f) in
  var_class_name f' = name /\
  class_name (setup_state f') = name /\
  cmb_classes f' = name /\
  txt_names f' =
    text_of (String.concat line_feed (@clean_lines plain_str (txt_names f))) /\
  (var_read f', var_expert f', var_stamm f') =
    (var_read f, var_expert f, var_stamm f) /\
  var_seed f' = 7%Z /\
  (2 <= length (@entered_topics plain_str f) ->
     topic_vars f' = @entered_topics plain_str f) /\
  (length (@entered_topics plain_str f) = 1 ->
     topic_vars f' = @entered_topics plain_str f ++ ["Thema 2"]) /\
  saved_classes f' = saved_classes (@_save_class plain_str (fun _ => None) f).
Proof.
  apply (load_after_save (S := plain_str) (fun _ => None) 7
           (sample_setup "Ada, Bob" ["X"; "Y"])).
  - done.
  - by vm_compute.
  - by vm_compute.
  - by vm_compute.
  - vm_compute. lia.
Defined.

(** ** Pausing stops the countdown *)

Lemma filter_absent (job : nat) (p : list nat) :
  job ∉ p -> filter (fun j => j <> job) p = p.
Proof.
  induction p as [|j p IH]; [done|].
  intros [Hne Hp]%not_elem_of_cons.
  rewrite (filter_cons (fun j => j <> job) j), decide_True by done.
  by rewrite IH.
Qed.

Lemma fire_paused (job : nat) (l : EventLoop) :
  running (state (frame l)) = false ->
  fire job l =
  {| frame := frame l; pending := filter (fun j => j <> job) (pending l) |}.
Proof.
  intros Hrun. unfold fire.
  assert (_tick (frame l) = frame l) as Htick.
  { unfold _tick. by rewrite Hrun. }
  rewrite Htick, (registered_none _ _ eq_refl), app_nil_r.
  case_decide as Hin; [done|].
  destruct l as [f p]. cbn [frame pending] in *. f_equal.
  by rewrite filter_absent.
Qed.

(** X27: pausing a running countdown takes no second off and cancels
    nothing, but the callback that is still pending finds the timer
    stopped when it fires: it changes nothing and registers no
    successor, so that no callback is left and the clock stands until the
    button is pressed again. *)
Theorem pause_stops_countdown (l : EventLoop) (job : nat) :
  running (state (frame l)) = true -> pending l = [job] ->
  let paused := press_toggle l in
  let l' := fire job paused in
  pending paused = [job] /\
  running (state (frame paused)) = false /\
  seconds_left (state (frame paused)) = seconds_left (state (frame l)) /\
  pending l' = [] /\
  frame l' = frame paused /\
  forall other, fire other l' = l'.
Proof.
  intros Hrun Hp paused l'.
  destruct (press_toggle_pause l Hrun) as (Hp1 & Hr1 & Hs1 & _).
  fold paused in Hp1, Hr1, Hs1. rewrite Hp in Hp1.
  assert (l' = {| frame := frame paused; pending := [] |}) as Hl'.
  { unfold l'. rewrite (fire_paused job paused Hr1), Hp1.
    rewrite (filter_cons (fun j => j <> job) job), decide_False
      by (by intros ?). done. }
  split; [done|]. split; [done|]. split; [done|].
  rewrite Hl'. cbn [frame pending]. split; [done|]. split; [done|].
  intros other. unfold fire. cbn [pending].
  rewrite decide_False; [done|]. apply not_elem_of_nil.
Qed.

Lemma pause_stops_countdown_sample :
  let l := {| frame := after_tick (sample_frame 1 480 true); pending := [0] |} in
  let paused := press_toggle l in
  let l' := fire 0 paused in
  pending paused = [0] /\
  running (state (frame paused)) = false /\
  seconds_left (state (frame paused)) = seconds_left (state (frame l)) /\
  pending l' = [] /\
  frame l' = frame paused /\
  forall other, fire other l' = l'.
Proof.
  apply (pause_stops_countdown
           {| frame := after_tick (sample_frame 1 480 true); pending := [0] |} 0).
  - reflexivity.
  - reflexivity.
Defined.
